(** * Speedy Bites chatbot: intent classification and fuzzy entity resolution

    A shallow embedding of [app/chatbot_logic.py]: text normalisation,
    per-intent scoring, the ordered decision policy of [detect_intent],
    the menu search [search_menu], the FAQ resolver and the dispatch of
    [get_bot_response].

    Conventions of the embedding.
    - Text is a [string] of 8-bit characters and the model is that of
      ASCII text: [is_space], [is_word], [lower_char] and [String.length]
      are what [str.isspace], the regular expression classes [\w] and
      [\s], [str.lower] and [len] do on characters below 128.  Python
      classifies and counts the characters above 127 by Unicode tables,
      which are not modelled: the properties about the case or the
      character set of an arbitrary input are stated for ASCII text
      ([is_ascii]).
    - Scores are integers ([Z]); lengths are natural numbers.
    - The [fuzzywuzzy] similarity functions are library code: they are
      parameters of the development (Section variables), never defined here.
    - Python's early [return] is the [option] monad read left to right: a
      rule or a handler block yields [Some r] when it returns [r] and [None]
      when control falls through to the next statement. *)

From Stdlib Require Import ZArith List String Ascii Bool Arith Lia Permutation.
Import ListNotations.

Local Open Scope string_scope.
Local Open Scope Z_scope.

(** ** Python string primitives *)

(** [str.isspace] on one ASCII character: TAB, LF, VT, FF, CR, the four
    separators FS, GS, RS, US, and the blank.  Unicode white space above
    127 is outside the model. *)
Definition is_space (c : ascii) : bool :=
  let n := nat_of_ascii c in
  ((9 <=? n) && (n <=? 13) || (28 <=? n) && (n <=? 32))%nat.

(** The regular expression class [\w] on ASCII: letters, digits and the
    underscore.  A byte above 127 is left in place as part of a word; what
    Python does with such characters is outside the model. *)
Definition is_word (c : ascii) : bool :=
  let n := nat_of_ascii c in
  ((48 <=? n) && (n <=? 57) || (65 <=? n) && (n <=? 90) || (n =? 95)
   || (97 <=? n) && (n <=? 122) || (128 <=? n))%nat.

Definition lower_char (c : ascii) : ascii :=
  let n := nat_of_ascii c in
  if ((65 <=? n) && (n <=? 90))%nat then ascii_of_nat (n + 32) else c.

(** [str.lower] on ASCII text: only A to Z have a lower-case form. *)
Fixpoint lower (s : string) : string :=
  match s with
  | EmptyString => EmptyString
  | String c r => String (lower_char c) (lower r)
  end.

Fixpoint lstrip (s : string) : string :=
  match s with
  | EmptyString => EmptyString
  | String c r => if is_space c then lstrip r else s
  end.

Fixpoint all_space (s : string) : bool :=
  match s with
  | EmptyString => true
  | String c r => is_space c && all_space r
  end.

Fixpoint rstrip (s : string) : string :=
  match s with
  | EmptyString => EmptyString
  | String c r => if all_space s then EmptyString else String c (rstrip r)
  end.

(** [str.strip] with no argument *)
Definition strip (s : string) : string := rstrip (lstrip s).

(** [re.sub(r'[^\w\s]', ' ', text)] *)
Fixpoint sub_nonword (s : string) : string :=
  match s with
  | EmptyString => EmptyString
  | String c r =>
      String (if is_word c || is_space c then c else " "%char) (sub_nonword r)
  end.

Definition is_empty (s : string) : bool :=
  match s with EmptyString => true | _ => false end.

(** [str.split] with no argument: the maximal runs of non-space characters.
    [cur] is the token being read. *)
Fixpoint split_from (cur s : string) : list string :=
  match s with
  | EmptyString => if is_empty cur then [] else [cur]
  | String c r =>
      if is_space c
      then (if is_empty cur then split_from EmptyString r
            else cur :: split_from EmptyString r)
      else split_from (cur ++ String c EmptyString) r
  end.

Definition split (s : string) : list string := split_from EmptyString s.

(** [sep.join(parts)] *)
Definition join (sep : string) (parts : list string) : string :=
  String.concat sep parts.

(** [sub in s] on strings *)
Fixpoint contains (sub s : string) : bool :=
  String.prefix sub s
  || match s with
     | EmptyString => false
     | String _ r => contains sub r
     end.

(** [s.replace(old, new)] for a non-empty [old]: occurrences are taken
    left to right and do not overlap; [skip] counts the characters of a
    matched occurrence still to be dropped. *)
Fixpoint replace_from (old new : string) (skip : nat) (s : string) : string :=
  match s with
  | EmptyString => EmptyString
  | String c r =>
      match skip with
      | S k => replace_from old new k r
      | O =>
          if String.prefix old s
          then new ++ replace_from old new (String.length old - 1) r
          else String c (replace_from old new O r)
      end
  end.

Definition replace (old new s : string) : string := replace_from old new 0 s.

(** [len(s)] as an integer, for ASCII text (one character per byte) *)
Definition len (s : string) : Z := Z.of_nat (String.length s).

(** Membership of a string in a list of strings *)
Definition mem (x : string) (l : list string) : bool :=
  existsb (String.eqb x) l.

(** ** [normalize_text] *)

(** The contraction table, in the order of the dict literal. *)
Definition contractions : list (string * string) :=
  [ ("what's", "what is"); ("what're", "what are"); ("who's", "who is");
    ("where's", "where is"); ("when's", "when is"); ("why's", "why is");
    ("how's", "how is"); ("it's", "it is"); ("that's", "that is");
    ("there's", "there is"); ("here's", "here is"); ("i'm", "i am");
    ("you're", "you are"); ("we're", "we are"); ("they're", "they are");
    ("i've", "i have"); ("you've", "you have"); ("we've", "we have");
    ("they've", "they have"); ("i'll", "i will"); ("you'll", "you will");
    ("we'll", "we will"); ("they'll", "they will"); ("don't", "do not");
    ("doesn't", "does not"); ("didn't", "did not"); ("can't", "cannot");
    ("won't", "will not"); ("isn't", "is not"); ("aren't", "are not");
    ("wasn't", "was not"); ("weren't", "were not") ].

(** The loop [for contraction, expansion in contractions.items()]. *)
Definition expand_contractions (table : list (string * string)) (text : string)
  : string :=
  fold_left (fun t ce => replace (fst ce) (snd ce) t) table text.

(** The three steps that precede the contraction loop. *)
Definition clean_text (text : string) : string :=
  join " " (split (sub_nonword (strip (lower text)))).

Definition normalize_text (text : string) : string :=
  expand_contractions contractions (clean_text text).

(** ** Predicates on the characters of a text *)

(** Every character of [s] satisfies [P]. *)
Fixpoint all_chars (P : ascii -> bool) (s : string) : bool :=
  match s with
  | EmptyString => true
  | String c r => P c && all_chars P r
  end.

(** The character [a] occurs in [s]. *)
Fixpoint occurs (a : ascii) (s : string) : bool :=
  match s with
  | EmptyString => false
  | String c r => Ascii.eqb a c || occurs a r
  end.

Definition word_or_space (c : ascii) : bool := is_word c || is_space c.

Definition apostrophe : ascii := "'"%char.

(** ** Early return *)

(** [a <|> b]: statement [a], then statement [b] unless [a] returned. *)
Definition orelse {A : Type} (a b : option A) : option A :=
  match a with
  | Some r => Some r
  | None => b
  end.

Infix "<|>" := orelse (at level 55, right associativity).

(** ** Intent keywords *)

Definition INTENT_KEYWORDS : list (string * list string) :=
  [ ("greeting",
      [ "hi"; "hello"; "hey"; "salam"; "assalam"; "good morning";
        "good afternoon"; "good evening"; "greetings"; "hi there";
        "hello there" ]);
    ("farewell",
      [ "bye"; "goodbye"; "see you"; "farewell"; "later"; "take care";
        "see ya"; "goodbye"; "ciao"; "adios" ]);
    ("hours_query",
      [ "open"; "opening"; "opens"; "close"; "closing"; "closes"; "hours";
        "hour"; "timing"; "timings"; "time"; "schedule"; "when"; "what time";
        "operational"; "working hours"; "business hours" ]);
    ("branch_query",
      [ "branch"; "branches"; "location"; "locations"; "address";
        "addresses"; "phone"; "contact"; "where"; "find"; "locate"; "outlet";
        "outlets"; "store"; "stores"; "shop"; "near" ]);
    ("about",
      [ "about"; "information"; "info"; "tell me about"; "who are you";
        "what is"; "describe"; "details"; "background"; "story"; "history";
        "mission" ]);
    ("faq_query",
      [ "delivery"; "deliver"; "veg"; "vegetarian"; "halal"; "service";
        "services"; "parking"; "park"; "car"; "payment"; "pay"; "card";
        "cash"; "credit"; "reservation"; "book"; "table"; "seat"; "sitting";
        "wifi"; "internet" ]);
    ("menu_query",
      [ "menu"; "dish"; "dishes"; "food"; "item"; "items"; "order"; "burger";
        "pizza"; "pasta"; "drink"; "fries"; "price"; "prices"; "cost";
        "how much"; "variants"; "flavours"; "flavors"; "show"; "what"; "list";
        "see"; "have"; "serve"; "what's"; "what is"; "what are"; "tell me";
        "show me"; "give me"; "i want"; "can i get"; "what do you have";
        "what do you serve"; "what can i order"; "what options"; "selection";
        "spicy"; "hot" ]) ].

(** ** Score tables: the dict [intent_scores] *)

(** [scores.get(key, default)] *)
Definition get (scores : list (string * Z)) (key : string) (default : Z) : Z :=
  match find (fun p => String.eqb (fst p) key) scores with
  | Some p => snd p
  | None => default
  end.

(** [max(xs)] of a non-empty sequence; [None] stands for the [ValueError]
    Python raises on an empty one. *)
Definition py_max (xs : list Z) : option Z :=
  match xs with
  | [] => None
  | x :: r => Some (fold_left Z.max r x)
  end.

(** [max(scores, key=scores.get)]: the first key whose value is maximal. *)
Fixpoint argmax_from (best : string) (best_v : Z) (l : list (string * Z))
  : string :=
  match l with
  | [] => best
  | (k, v) :: r =>
      if best_v <? v then argmax_from k v r else argmax_from best best_v r
  end.

Definition argmax_key (scores : list (string * Z)) : option string :=
  match scores with
  | [] => None
  | (k, v) :: r => Some (argmax_from k v r)
  end.

Section Intent.

(** [fuzz.ratio] and [fuzz.partial_ratio] of the fuzzywuzzy library. *)
Variables ratio partial_ratio : string -> string -> Z.

(** ** [calculate_intent_score] *)

(** The inner loop over [user_words] for one keyword: [best_match].  The
    lengths are those of ASCII words. *)
Definition best_match (user_words : list string) (keyword : string) : Z :=
  fold_left
    (fun best user_word =>
       if ((2 <? String.length user_word) && (2 <? String.length keyword))%nat
       then Z.max best (ratio user_word keyword)
       else best)
    user_words 0.

(** What the first loop appends for one keyword. *)
Definition word_score (user_words : list string) (keyword : string) : Z :=
  if mem keyword user_words then 100 else best_match user_words keyword.

(** [len(keyword.split()) > 1] *)
Definition multi_word (keyword : string) : bool :=
  (1 <? List.length (split keyword))%nat.

(** The list [scores] after both loops. *)
Definition recorded_scores (user_msg : string) (intent_keywords : list string)
  : list Z :=
  let user_words := nodup string_dec (split user_msg) in
  map (word_score user_words) intent_keywords
  ++ map (partial_ratio user_msg) (filter multi_word intent_keywords).

Definition calculate_intent_score (user_msg : string)
  (intent_keywords : list string) : Z :=
  match py_max (recorded_scores user_msg intent_keywords) with
  | Some m => m
  | None => 0
  end.

(** ** [detect_intent] *)

(** [f" {keyword} " in f" {normalized_msg} "] *)
Definition standalone (keyword normalized_msg : string) : bool :=
  contains (" " ++ keyword ++ " ") (" " ++ normalized_msg ++ " ").

(** The loop of direct keyword matches that follows the scoring call. *)
Definition keyword_override (normalized_msg : string) (score : Z)
  (keywords : list string) : Z :=
  fold_left
    (fun score keyword =>
       if standalone keyword normalized_msg then Z.max score 100
       else if (3 <? String.length keyword)%nat && contains keyword normalized_msg
            then Z.max score 90
            else score)
    keywords score.

Definition intent_score (normalized_msg : string) (keywords : list string) : Z :=
  keyword_override normalized_msg
    (calculate_intent_score normalized_msg keywords) keywords.

Definition scores_of (table : list (string * list string))
  (normalized_msg : string) : list (string * Z) :=
  map (fun ik => (fst ik, intent_score normalized_msg (snd ik))) table.

Definition intent_scores (normalized_msg : string) : list (string * Z) :=
  scores_of INTENT_KEYWORDS normalized_msg.

(** The decision rules, one per [if] statement of the source, in order. *)

Definition rule_greeting (s : list (string * Z)) : option string :=
  if 80 <? get s "greeting" 0 then Some "greeting" else None.

Definition rule_farewell (s : list (string * Z)) : option string :=
  if 80 <? get s "farewell" 0 then Some "farewell" else None.

Definition rule_branch (s : list (string * Z)) : option string :=
  if 70 <? get s "branch_query" 0
  then (if get s "branch_query" 0 <? get s "menu_query" 0
        then None
        else Some "branch_query")
  else None.

Definition rule_faq (s : list (string * Z)) : option string :=
  if 70 <? get s "faq_query" 0 then Some "faq_query" else None.

Definition hours_words : list string := ["open"; "close"; "timing"; "hour"].

Definition rule_hours (s : list (string * Z)) (normalized_msg : string)
  : option string :=
  if 70 <? get s "hours_query" 0
  then (if 70 <? get s "menu_query" 0
        then (if existsb (fun w => contains w normalized_msg) hours_words
              then Some "hours_query"
              else None)
        else Some "hours_query")
  else None.

Definition rule_about (s : list (string * Z)) : option string :=
  if (70 <? get s "about" 0) && (get s "menu_query" 0 <? 60)
  then Some "about" else None.

Definition rule_menu (s : list (string * Z)) : option string :=
  if 50 <? get s "menu_query" 0 then Some "menu_query" else None.

Definition rule_best (s : list (string * Z)) : option string :=
  match py_max (map snd s) with
  | Some max_score => if 50 <? max_score then argmax_key s else None
  | None => None
  end.

Definition rule_short (normalized_msg : string) : option string :=
  if (List.length (split normalized_msg) <=? 4)%nat
  then Some "menu_query" else None.

(** The rules that read the scores, in source order. *)
Definition scored_rules (s : list (string * Z)) (normalized_msg : string)
  : option string :=
  rule_greeting s <|> rule_farewell s <|> rule_branch s <|> rule_faq s
  <|> rule_hours s normalized_msg <|> rule_about s <|> rule_menu s
  <|> rule_best s.

Definition decide (s : list (string * Z)) (normalized_msg : string) : string :=
  match scored_rules s normalized_msg <|> rule_short normalized_msg with
  | Some intent => intent
  | None => "unknown"
  end.

Definition detect_intent (user_msg : string) : string :=
  let normalized_msg := normalize_text user_msg in
  decide (intent_scores normalized_msg) normalized_msg.

End Intent.

(** ** The scoring algorithm as the specification words it *)

(** The greatest of a list of scores, 0 for the empty list. *)
Definition max_or_zero (xs : list Z) : Z := fold_right Z.max 0 xs.

(** The best [ratio] between a keyword and the tokens of the text, taken
    only over pairs in which both are longer than two characters. *)
Definition spec_best_ratio (ratio : string -> string -> Z)
  (tokens : list string) (keyword : string) : Z :=
  max_or_zero
    (map (fun token => ratio token keyword)
       (filter
          (fun token =>
             ((2 <? String.length token) && (2 <? String.length keyword))%nat)
          tokens)).

(** The maximum over the per-keyword best ratios together with the
    [partial_ratio] of every multi-word keyword. *)
Definition spec_fuzzy_score (ratio partial_ratio : string -> string -> Z)
  (text : string) (keywords : list string) : Z :=
  max_or_zero
    (map (spec_best_ratio ratio (nodup string_dec (split text))) keywords
     ++ map (partial_ratio text) (filter multi_word keywords)).

(** ** Values loaded from the JSON files *)

(** What [json.load] builds: [None], booleans, numbers (integers in this
    model), strings, lists and dicts with string keys.  A dict is the list
    of its items in insertion order. *)
#[local] Set Warnings "-register-all".

Inductive value : Type :=
| VNone
| VBool (b : bool)
| VInt (n : Z)
| VStr (s : string)
| VList (items : list value)
| VDict (fields : list (string * value)).

Inductive exn : Type := TypeError | AttributeError.

(** A computation that returns or raises. *)
Inductive result (A : Type) : Type :=
| Ok (a : A)
| Raise (e : exn).

Arguments Ok {A} a.
Arguments Raise {A} e.

Definition bind {A B : Type} (m : result A) (k : A -> result B) : result B :=
  match m with
  | Ok a => k a
  | Raise e => Raise e
  end.

Notation "x <- m ;; k" := (bind m (fun x => k))
  (at level 61, m at next level, right associativity).

(** A [for] loop whose body may raise. *)
Fixpoint for_each {A S : Type} (body : A -> S -> result S) (xs : list A) (st : S)
  : result S :=
  match xs with
  | [] => Ok st
  | x :: r => st' <- body x st ;; for_each body r st'
  end.

(** [key in d] and [d[key]] on a dict; [None] is the missing key. *)
Fixpoint lookup (d : list (string * value)) (key : string) : option value :=
  match d with
  | [] => None
  | (k, v) :: r => if String.eqb k key then Some v else lookup r key
  end.

(** [d.get(key, default)] *)
Definition dict_get (d : list (string * value)) (key : string) (default : value)
  : value :=
  match lookup d key with
  | Some v => v
  | None => default
  end.

(** Truth value of an object in a condition. *)
Definition truthy (v : value) : bool :=
  match v with
  | VNone => false
  | VBool b => b
  | VInt n => negb (n =? 0)
  | VStr s => negb (is_empty s)
  | VList items => match items with [] => false | _ => true end
  | VDict fields => match fields with [] => false | _ => true end
  end.

(** Lists and dicts cannot be dict keys. *)
Definition hashable (v : value) : bool :=
  match v with
  | VList _ | VDict _ => false
  | _ => true
  end.

(** Equality of dict keys: [True] and [1] (and [False] and [0]) are the
    same key. *)
Definition key_eqb (a b : value) : bool :=
  match a, b with
  | VNone, VNone => true
  | VBool x, VBool y => Bool.eqb x y
  | VInt x, VInt y => x =? y
  | VBool x, VInt y | VInt y, VBool x => y =? (if x then 1 else 0)
  | VStr x, VStr y => String.eqb x y
  | _, _ => false
  end.

(** [m[key] = v] on a dict with arbitrary hashable keys. *)
Fixpoint map_set (m : list (value * value)) (key v : value)
  : list (value * value) :=
  match m with
  | [] => [(key, v)]
  | (k, old) :: r =>
      if key_eqb k key then (k, v) :: r else (k, old) :: map_set r key v
  end.

(** [m.get(key)] *)
Fixpoint map_get (m : list (value * value)) (key : value) : option value :=
  match m with
  | [] => None
  | (k, v) :: r => if key_eqb k key then Some v else map_get r key
  end.

(** The first pair with the greatest score: Python's [max] with a key
    function keeps the first maximal element. *)
Fixpoint first_max_from {A : Type} (best : A * Z) (l : list (A * Z)) : A * Z :=
  match l with
  | [] => best
  | p :: r => if snd best <? snd p then first_max_from p r else first_max_from best r
  end.

Definition first_max {A : Type} (l : list (A * Z)) : option (A * Z) :=
  match l with
  | [] => None
  | p :: r => Some (first_max_from p r)
  end.

(** ** [search_menu] *)

(** The two local variables of the corpus loop. *)
Record corpus : Type := Corpus {
  all_items : list value;
  item_map : list (value * value)
}.

Definition empty_corpus : corpus := Corpus [] [].

(** [all_items.append(cand); item_map[cand] = owner] *)
Definition add (cand owner : value) (st : corpus) : result corpus :=
  if hashable cand
  then Ok (Corpus (all_items st ++ [cand]) (map_set (item_map st) cand owner))
  else Raise TypeError.

Section Search.

(** [str(v)] of a value that is not a string, as an f-string formats it. *)
Variable py_str : value -> string.

(** The score [process.extractOne] gives one choice (the default processor
    followed by the default scorer); [None] when the library raises on it. *)
Variable extract_score : string -> value -> option Z.

Definition fmt (v : value) : string :=
  match v with
  | VStr s => s
  | _ => py_str v
  end.

(** The body of [for v in item["variants"]]. *)
Definition add_variant (name v : value) (st : corpus) : result corpus :=
  match v with
  | VDict fields =>
      match lookup fields "size" with
      | Some size => add (VStr (fmt size ++ " " ++ fmt name)) name st
      | None => Ok st
      end
  | _ => Ok st
  end.

(** The body of [for f in item["flavours"]]. *)
Definition add_flavour (name f : value) (st : corpus) : result corpus :=
  match f with
  | VDict fields =>
      match lookup fields "name" with
      | Some fname =>
          st1 <- add (VStr (fmt fname ++ " " ++ fmt name)) name st ;;
          add fname name st1
      | None => Ok st
      end
  | VStr s =>
      st1 <- add (VStr (s ++ " " ++ fmt name)) name st ;;
      add (VStr s) name st1
  | _ => Ok st
  end.

(** The body of [for item in items]. *)
Definition add_item (item : value) (st : corpus) : result corpus :=
  match item with
  | VDict fields =>
      match lookup fields "name" with
      | None => Ok st
      | Some name =>
          st1 <- add name name st ;;
          st2 <- match lookup fields "description" with
                 | Some desc => if truthy desc then add desc name st1 else Ok st1
                 | None => Ok st1
                 end ;;
          st3 <- match lookup fields "variants" with
                 | Some (VList variants) => for_each (add_variant name) variants st2
                 | _ => Ok st2
                 end ;;
          match lookup fields "flavours" with
          | Some (VList flavours) => for_each (add_flavour name) flavours st3
          | _ => Ok st3
          end
      end
  | _ => Ok st
  end.

(** The body of [for category, items in menu_data.items()]. *)
Definition add_category (entry : string * value) (st : corpus) : result corpus :=
  match snd entry with
  | VList items => for_each add_item items st
  | _ => Ok st
  end.

Definition build_corpus (menu : list (string * value)) : result corpus :=
  for_each add_category menu empty_corpus.

(** The pairs [(choice, score)] that [extractWithoutOrder] yields with the
    default cutoff 0, or the exception of the first choice that raises. *)
Fixpoint scored_choices (query : string) (choices : list value)
  : result (list (value * Z)) :=
  match choices with
  | [] => Ok []
  | c :: r =>
      match extract_score query c with
      | None => Raise TypeError
      | Some score =>
          rest <- scored_choices query r ;;
          Ok (if 0 <=? score then (c, score) :: rest else rest)
      end
  end.

(** [process.extractOne(query, choices)] on a list of choices: the first
    best pair, or [None] when nothing was yielded. *)
Definition extractOne (query : string) (choices : list value)
  : result (option (value * Z)) :=
  pairs <- scored_choices query choices ;;
  Ok (first_max pairs).

Definition search_menu (user_msg : string) (menu_data : value) : result value :=
  match menu_data with
  | VDict menu =>
      st <- build_corpus menu ;;
      match all_items st with
      | [] => Ok VNone
      | _ =>
          match extractOne user_msg (all_items st) with
          | Ok (Some (matched, score)) =>
              if 60 <=? score
              then Ok (match map_get (item_map st) matched with
                       | Some name => name
                       | None => VNone
                       end)
              else Ok VNone
          | Ok None => Ok VNone
          | Raise _ => Ok VNone
          end
      end
  | _ => Raise AttributeError
  end.

(** *** The corpus as a list of contributions

    What the loops add, in order and without the hashing: each pair holds
    a candidate string and the name of the item that contributes it. *)

Definition variant_pairs (name v : value) : list (value * value) :=
  match v with
  | VDict fields =>
      match lookup fields "size" with
      | Some size => [(VStr (fmt size ++ " " ++ fmt name), name)]
      | None => []
      end
  | _ => []
  end.

Definition flavour_pairs (name f : value) : list (value * value) :=
  match f with
  | VDict fields =>
      match lookup fields "name" with
      | Some fname => [(VStr (fmt fname ++ " " ++ fmt name), name); (fname, name)]
      | None => []
      end
  | VStr s => [(VStr (s ++ " " ++ fmt name), name); (VStr s, name)]
  | _ => []
  end.

Definition description_pairs (name : value) (fields : list (string * value))
  : list (value * value) :=
  match lookup fields "description" with
  | Some desc => if truthy desc then [(desc, name)] else []
  | None => []
  end.

Definition item_pairs (item : value) : list (value * value) :=
  match item with
  | VDict fields =>
      match lookup fields "name" with
      | None => []
      | Some name =>
          ((name, name) :: description_pairs name fields)
          ++ match lookup fields "variants" with
             | Some (VList variants) => flat_map (variant_pairs name) variants
             | _ => []
             end
          ++ match lookup fields "flavours" with
             | Some (VList flavours) => flat_map (flavour_pairs name) flavours
             | _ => []
             end
      end
  | _ => []
  end.

Definition category_pairs (entry : string * value) : list (value * value) :=
  match snd entry with
  | VList items => flat_map item_pairs items
  | _ => []
  end.

Definition contributions (menu : list (string * value)) : list (value * value) :=
  flat_map category_pairs menu.

End Search.

(** The name of the first, and of the last, item that contributes the
    candidate [cand]. *)
Definition first_owner (pairs : list (value * value)) (cand : value)
  : option value :=
  option_map snd (find (fun p => key_eqb (fst p) cand) pairs).

Definition last_owner (pairs : list (value * value)) (cand : value)
  : option value :=
  first_owner (rev pairs) cand.

(** The run of [add] calls for a list of contributions. *)
Definition add_all (pairs : list (value * value)) (st : corpus) : result corpus :=
  for_each (fun p => add (fst p) (snd p)) pairs st.

(** Booleans are the integers 0 and 1 as dict keys. *)
Definition key_norm (v : value) : value :=
  match v with
  | VBool b => VInt (if b then 1 else 0)
  | _ => v
  end.

(** [name] is the "name" field of an item of the catalog. *)
Definition is_item_name (menu : list (string * value)) (name : value) : Prop :=
  exists category items fields,
    In (category, VList items) menu
    /\ In (VDict fields) items
    /\ lookup fields "name" = Some name.

(** ** [get_bot_response] *)

Definition farewells : list string :=
  ["Bye! Have a great day!"; "See you soon!"; "Thanks for visiting Speedy Bites!"].

Definition no_faq_data : string :=
  "Sorry, I don't have FAQ information available.".

Definition no_faq_answer : string :=
  "Sorry, I don't have an answer for that. You can ask about delivery, vegetarian options, halal food, or our services.".

(** The one-character strings of a string. *)
Fixpoint chars (s : string) : list value :=
  match s with
  | EmptyString => []
  | String c r => VStr (String c EmptyString) :: chars r
  end.

(** What [for q in v] iterates over: the items of a list, the keys of a
    dict, the characters of a string; the other values are not iterable. *)
Definition iterate (v : value) : result (list value) :=
  match v with
  | VList items => Ok items
  | VDict fields => Ok (map (fun kv => VStr (fst kv)) fields)
  | VStr s => Ok (chars s)
  | _ => Raise TypeError
  end.

(** [data.get(key, default)] on the data snapshot. *)
Definition data_get (data : value) (key : string) (default : value)
  : result value :=
  match data with
  | VDict fields => Ok (dict_get fields key default)
  | _ => Raise AttributeError
  end.

(** [if cond: body] as a statement that may return. *)
Definition when {A : Type} (cond : bool) (body : option A) : option A :=
  if cond then body else None.

Section Response.

Variables ratio partial_ratio token_set_ratio : string -> string -> Z.

(** [random.choice]. *)
Variable random_choice : list string -> string.

(** Module constants whose text holds characters outside ASCII. *)
Variable greetings : list string.
Variable fallback : string.

(** The menu, branch, hours and about blocks build display text, which is
    outside the core.  Each of them ends in an unconditional [return]
    (lines 500, 523, 556 and 596), so a block maps the message and the
    data to what it returns or raises. *)
Variables menu_block branch_block hours_block about_block
  : string -> value -> result value.

(** The handler blocks written after line 598; such a block may also fall
    through. *)
Variables late_menu_block late_branch_block late_hours_block late_faq_block
  late_about_block : string -> value -> option (result value).

(** The body of [for q in faqs]; the state is [(best_match, best_score)]. *)
Definition faq_step (user_lower : string) (q : value) (st : value * Z)
  : result (value * Z) :=
  match q with
  | VDict fields =>
      match dict_get fields "question" (VStr "") with
      | VStr question =>
          let score := token_set_ratio user_lower (lower question) in
          if snd st <? score
          then Ok (dict_get fields "answer" (VStr ""), score)
          else Ok st
      | _ => Raise AttributeError
      end
  | _ => Ok st
  end.

(** The block [if intent == "faq_query":]. *)
Definition faq_block (user_lower : string) (data : value) : result value :=
  faqs <- data_get data "faq" (VList []) ;;
  if negb (truthy faqs) then Ok (VStr no_faq_data)
  else
    entries <- iterate faqs ;;
    st <- for_each (faq_step user_lower) entries (VNone, 0) ;;
    if 60 <? snd st then Ok (fst st) else Ok (VStr no_faq_answer).

(** Lines 378 to 598: the statements up to and including the first
    [return fallback]. *)
Definition live_statements (user_msg : string) (data : value)
  : option (result value) :=
  let intent := detect_intent ratio partial_ratio user_msg in
  let user_lower := strip (lower user_msg) in
  when (String.eqb intent "greeting") (Some (Ok (VStr (random_choice greetings))))
  <|> when (String.eqb intent "farewell") (Some (Ok (VStr (random_choice farewells))))
  <|> when (String.eqb intent "menu_query") (Some (menu_block user_msg data))
  <|> when (String.eqb intent "branch_query") (Some (branch_block user_msg data))
  <|> when (String.eqb intent "hours_query") (Some (hours_block user_msg data))
  <|> when (String.eqb intent "faq_query") (Some (faq_block user_lower data))
  <|> when (String.eqb intent "about") (Some (about_block user_msg data))
  <|> Some (Ok (VStr fallback)).

(** Lines 599 to 891: the second run of handler blocks and the last
    [return fallback]. *)
Definition late_statements (user_msg : string) (data : value)
  : option (result value) :=
  let intent := detect_intent ratio partial_ratio user_msg in
  when (String.eqb intent "menu_query") (late_menu_block user_msg data)
  <|> when (String.eqb intent "branch_query") (late_branch_block user_msg data)
  <|> when (String.eqb intent "hours_query") (late_hours_block user_msg data)
  <|> when (String.eqb intent "faq_query") (late_faq_block user_msg data)
  <|> when (String.eqb intent "about") (late_about_block user_msg data)
  <|> Some (Ok (VStr fallback)).

(** A function body that runs off its end returns [None]. *)
Definition run_body (body : option (result value)) : result value :=
  match body with
  | Some r => r
  | None => Ok VNone
  end.

Definition get_bot_response (user_msg : string) (data : value) : result value :=
  run_body (live_statements user_msg data <|> late_statements user_msg data).

(** The function cut after line 598. *)
Definition get_bot_response_truncated (user_msg : string) (data : value)
  : result value :=
  run_body (live_statements user_msg data).

End Response.

(** ** The FAQ resolver as the specification words it *)

(** The answer and the score of every entry that is a dict with a text
    question, in list order. *)
Definition faq_scores (token_set_ratio : string -> string -> Z)
  (user_lower : string) (entries : list value) : list (value * Z) :=
  flat_map
    (fun q =>
       match q with
       | VDict fields =>
           match dict_get fields "question" (VStr "") with
           | VStr question =>
               [(dict_get fields "answer" (VStr ""),
                 token_set_ratio user_lower (lower question))]
           | _ => []
           end
       | _ => []
       end)
    entries.

(** The answer of the first entry with the greatest score when that score
    exceeds 60, the no-match reply otherwise. *)
Definition spec_faq_answer (token_set_ratio : string -> string -> Z)
  (user_lower : string) (entries : list value) : value :=
  match first_max (faq_scores token_set_ratio user_lower entries) with
  | Some (answer, score) => if 60 <? score then answer else VStr no_faq_answer
  | None => VStr no_faq_answer
  end.

(** An entry the loop can score: not a dict (it is skipped), or a dict
    whose question is text. *)
Definition question_is_text (q : value) : bool :=
  match q with
  | VDict fields =>
      match dict_get fields "question" (VStr "") with
      | VStr _ => true
      | _ => false
      end
  | _ => true
  end.

(** The intents of the keyword table, in its order. *)
Definition intent_labels : list string :=
  ["greeting"; "farewell"; "hours_query"; "branch_query"; "about";
   "faq_query"; "menu_query"].

(** The handled intents, in the order of the handler blocks. *)
Definition handled_intents : list string :=
  ["greeting"; "farewell"; "menu_query"; "branch_query"; "hours_query";
   "faq_query"; "about"].

(** ** Stand-ins for the library, to run the model

    They are used only to evaluate the model on concrete inputs. *)

(** 100 on equal strings, 0 otherwise. *)
Definition exact_ratio (a b : string) : Z := if String.eqb a b then 100 else 0.

Definition no_ratio (a b : string) : Z := 0.

(** The score of a text choice is [exact_ratio]; other choices raise. *)
Definition exact_score (query : string) (choice : value) : option Z :=
  match choice with
  | VStr s => Some (exact_ratio query s)
  | _ => None
  end.

Definition no_str (v : value) : string := "".

(** Two items that share the flavour "Spicy". *)
Definition shared_flavour_menu : list (string * value) :=
  [ ("burgers",
      VList [ VDict [ ("name", VStr "Zinger Burger");
                      ("flavours", VList [VStr "Spicy"]) ] ]);
    ("sides",
      VList [ VDict [ ("name", VStr "Chicken Wings");
                      ("flavours", VList [VStr "Spicy"]) ] ]) ].

(** An item whose name is a list. *)
Definition list_name_menu : list (string * value) :=
  [ ("burgers", VList [ VDict [ ("name", VList [VStr "Zinger Burger"]) ] ]) ].

(** A catalog that is a list of items instead of a dict of categories. *)
Definition list_menu : value :=
  VList [ VDict [ ("name", VStr "Zinger Burger") ] ].

Definition sample_faqs : list value :=
  [ VDict [ ("question", VStr "Do you deliver?"); ("answer", VStr "Yes, we deliver.") ];
    VStr "stray";
    VDict [ ("question", VStr "Is the food halal?"); ("answer", VStr "Yes, all of it.") ] ].

(** Stand-ins for [random.choice] and for the display blocks. *)
Definition first_choice (xs : list string) : string := hd "" xs.

Definition plain_block (user_msg : string) (data : value) : result value :=
  Ok (VStr "display text").

Definition absent_block (user_msg : string) (data : value)
  : option (result value) := None.

Definition sample_data : list (string * value) := [("faq", VList sample_faqs)].

(** ** [expand_synonyms] *)

(** The synonym dictionary, in the order of the dict literal. *)
Definition SYNONYMS : list (string * list string) :=
  [ ("menu", ["menu"; "card"; "list"; "items"; "dishes"; "food"; "catalog";
              "selection"]);
    ("dish", ["dish"; "item"; "food"; "meal"; "course"; "plate"]);
    ("show", ["show"; "display"; "see"; "view"; "list"; "tell"; "give";
              "provide"]);
    ("what", ["what"; "which"; "tell me"; "i want to know"]);
    ("price", ["price"; "cost"; "rate"; "charge"; "fee"; "amount"; "how much"]);
    ("hours", ["hours"; "timing"; "time"; "schedule"; "open"; "opening";
               "close"; "closing"]);
    ("when", ["when"; "what time"; "at what time"]);
    ("open", ["open"; "opens"; "opening"; "available"; "operational"]);
    ("close", ["close"; "closes"; "closing"; "closed"]);
    ("branch", ["branch"; "location"; "outlet"; "store"; "shop"; "restaurant"]);
    ("address", ["address"; "location"; "where"; "place"; "venue"]);
    ("phone", ["phone"; "contact"; "number"; "telephone"; "call"]);
    ("have", ["have"; "serve"; "offer"; "provide"; "sell"; "available"]);
    ("can", ["can"; "could"; "able"; "possible"]);
    ("do", ["do"; "does"; "is"; "are"; "was"; "were"]) ].

(** The inner loop over [synonym_dict.items()]: the synonyms of the first
    group that holds [word], [None] when the loop ends without a [break]. *)
Fixpoint synonyms_of (word : string) (synonym_dict : list (string * list string))
  : option (list string) :=
  match synonym_dict with
  | [] => None
  | (key, synonyms) :: r =>
      if mem word synonyms then Some synonyms else synonyms_of word r
  end.

(** The list [expanded_words] after the outer loop. *)
Definition expanded_words (text : string)
  (synonym_dict : list (string * list string)) : list string :=
  flat_map
    (fun word =>
       match synonyms_of word synonym_dict with
       | Some synonyms => synonyms
       | None => [word]
       end)
    (split text).

Definition expand_synonyms (text : string)
  (synonym_dict : list (string * list string)) : string :=
  join " " (expanded_words text synonym_dict).

(** ** [fuzzy_word_in_text] *)

(** The loop returns [True] at the first word of the text whose ratio
    reaches the threshold. *)
Definition fuzzy_word_in_text (ratio : string -> string -> Z)
  (word text : string) (threshold : Z) : bool :=
  existsb
    (fun text_word => threshold <=? ratio (lower word) (lower text_word))
    (split text).

(** ** The quick-action buttons of [api_query] ([app/main.py]) *)

Definition greeting_triggers : list string :=
  ["hi"; "hello"; "hey"; "greet"; "start"].

Definition menu_triggers : list string :=
  ["menu"; "dish"; "food"; "order"; "burger"; "pizza"].

Definition branch_triggers : list string :=
  ["branch"; "location"; "address"; "where"].

Definition hours_triggers : list string :=
  ["open"; "hour"; "timing"; "close"; "time"].

(** [any(word in msg for word in words)] *)
Definition any_in (words : list string) (msg : string) : bool :=
  existsb (fun word => contains word msg) words.

(** The [if]/[elif] chain of [api_query] that fills [actions] (lines 68
    to 82). *)
Definition api_query_actions (message : string) : list string :=
  let msg_lower := lower message in
  if any_in greeting_triggers msg_lower
  then ["View Menu"; "Our Branches"; "Opening Hours"]
  else if any_in menu_triggers msg_lower
  then ["Full Menu"; "Our Branches"; "Order Online"]
  else if any_in branch_triggers msg_lower
  then ["View Menu"; "Opening Hours"; "Contact"]
  else if any_in hours_triggers msg_lower
  then ["View Menu"; "Our Branches"]
  else [].

(** The reply of [api_query] and [chat] before the data is loaded. *)
Definition starting_up : string :=
  "Service starting up, please try again in a moment.".

Section ApiQuery.

Variables ratio partial_ratio token_set_ratio : string -> string -> Z.
Variable random_choice : list string -> string.
Variable greetings : list string.
Variable fallback : string.
Variables menu_block branch_block hours_block about_block
  : string -> value -> result value.
Variables late_menu_block late_branch_block late_hours_block late_faq_block
  late_about_block : string -> value -> option (result value).

(** [api_query]: [data] is [getattr(app.state, "data", None)]; the result
    is the pair of the "answer" and "actions" entries of the returned
    dict.  An exception of [get_bot_response] leaves the handler before
    the buttons are chosen. *)
Definition api_query (data : option value) (message : string)
  : result (value * list string) :=
  match data with
  | None => Ok (VStr starting_up, [])
  | Some loaded =>
      answer <- get_bot_response ratio partial_ratio token_set_ratio
                  random_choice greetings fallback menu_block branch_block
                  hours_block about_block late_menu_block late_branch_block
                  late_hours_block late_faq_block late_about_block
                  message loaded ;;
      Ok (answer, api_query_actions message)
  end.

End ApiQuery.

(** ** Auxiliary notions for the properties *)

(** A character of the ASCII range, and a text made of such characters. *)
Definition is_ascii_char (c : ascii) : bool := (nat_of_ascii c <? 128)%nat.

Definition is_ascii (s : string) : bool := all_chars is_ascii_char s.

(** A lower-case ASCII letter, a digit, the underscore or the blank. *)
Definition plain_char (c : ascii) : bool :=
  let n := nat_of_ascii c in
  ((48 <=? n) && (n <=? 57) || (97 <=? n) && (n <=? 122) || (n =? 95)
   || (n =? 32))%nat.


(** A token as [str.split] produces it: not empty, no white space. *)
Definition is_token (t : string) : bool :=
  negb (is_empty t) && all_chars (fun c => negb (is_space c)) t.

(** A character [str.lower] leaves as it is. *)
Definition is_lowered (c : ascii) : bool := Ascii.eqb (lower_char c) c.

(** The items of all the categories of a catalog, in order. *)
Definition catalog_items (menu : list (string * value)) : list value :=
  flat_map
    (fun entry =>
       match snd entry with
       | VList items => items
       | _ => []
       end)
    menu.

(** A catalog for the runs of [search_menu]: a second item is named after
    a flavour of the first. *)
Definition name_clash_menu : list (string * value) :=
  [ ("burgers",
      VList [ VDict [ ("name", VStr "Zinger Burger");
                      ("flavours", VList [VStr "Spicy"]) ];
              VStr "not an item";
              VDict [ ("description", VStr "no name") ] ]);
    ("note", VStr "not a category");
    ("sides", VList [ VDict [ ("name", VStr "Fries") ] ]) ].

(** FAQ entries one of which has a number for a question. *)
Definition broken_faqs : list value :=
  [ VDict [ ("question", VStr "Do you deliver?"); ("answer", VStr "Yes.") ];
    VDict [ ("question", VInt 42); ("answer", VStr "No.") ] ].

(** A catalog in which nothing is a dict with a name. *)
Definition unnamed_menu : list (string * value) :=
  [ ("burgers", VList [ VStr "Zinger Burger";
                        VDict [ ("description", VStr "no name") ] ]);
    ("note", VStr "not a category") ].

(** * Properties *)

Example normalize_hi_there : normalize_text "Hi there!" = "hi there".
Proof. reflexivity. Qed.

Example normalize_spaces : normalize_text "  What   TIME do you open?? " = "what time do you open".
Proof. reflexivity. Qed.

Example replace_single_pass : replace "ab" "aab" "abab" = "aabaab".
Proof. reflexivity. Qed.

(** ** Characters of the normalised text *)

Lemma all_chars_app P s t :
  all_chars P (s ++ t) = all_chars P s && all_chars P t.
Proof.
  induction s as [|c s IH]; simpl; [reflexivity|].
  now rewrite IH, andb_assoc.
Qed.

Lemma all_chars_sub_nonword s : all_chars word_or_space (sub_nonword s) = true.
Proof.
  induction s as [|c s IH]; simpl; [reflexivity|].
  rewrite IH, andb_true_r.
  unfold word_or_space. destruct (is_word c || is_space c) eqn:E; [exact E|reflexivity].
Qed.

Lemma all_chars_split_from P cur s :
  all_chars P cur = true -> all_chars P s = true ->
  Forall (fun t => all_chars P t = true) (split_from cur s).
Proof.
  revert cur. induction s as [|c s IH]; intros cur Hcur Hs; simpl.
  - destruct (is_empty cur); auto.
  - simpl in Hs. apply andb_true_iff in Hs as [Hc Hs].
    destruct (is_space c).
    + destruct (is_empty cur); [|constructor; [assumption|]]; now apply IH.
    + apply IH; [|assumption].
      rewrite all_chars_app, Hcur. simpl. now rewrite Hc.
Qed.

Lemma all_chars_join P sep parts :
  all_chars P sep = true ->
  Forall (fun t => all_chars P t = true) parts ->
  all_chars P (join sep parts) = true.
Proof.
  intros Hsep. unfold join.
  induction 1 as [|t parts Ht Hparts IH]; [reflexivity|].
  destruct parts as [|u parts]; simpl; [assumption|].
  rewrite !all_chars_app, Ht, Hsep. exact IH.
Qed.

Lemma all_chars_clean_text text :
  all_chars word_or_space (clean_text text) = true.
Proof.
  unfold clean_text. apply all_chars_join; [reflexivity|].
  apply all_chars_split_from; [reflexivity|apply all_chars_sub_nonword].
Qed.

Lemma all_chars_occurs P a s :
  P a = false -> all_chars P s = true -> occurs a s = false.
Proof.
  intros Ha. induction s as [|c s IH]; simpl; [reflexivity|].
  intros H. apply andb_true_iff in H as [Hc Hs].
  rewrite (IH Hs), orb_false_r.
  destruct (Ascii.eqb_spec a c) as [->|]; [congruence|reflexivity].
Qed.

Lemma prefix_occurs a old s :
  String.prefix old s = true -> occurs a old = true -> occurs a s = true.
Proof.
  revert s. induction old as [|c old IH]; intros s Hp Ho; [discriminate|].
  destruct s as [|d s]; [discriminate|]. simpl in *.
  destruct (ascii_dec c d) as [->|]; [|discriminate].
  apply orb_true_iff in Ho as [Ho|Ho]; [now rewrite Ho|].
  rewrite (IH _ Hp Ho). apply orb_true_r.
Qed.

Lemma replace_absent a old new s :
  occurs a old = true -> occurs a s = false -> replace old new s = s.
Proof.
  intros Ho. unfold replace.
  induction s as [|c s IH]; intros Hs; [reflexivity|].
  cbn [replace_from].
  destruct (String.prefix old (String c s)) eqn:Hp.
  - rewrite (prefix_occurs a _ _ Hp Ho) in Hs. discriminate.
  - simpl in Hs. apply orb_false_iff in Hs as [_ Hs]. now rewrite IH.
Qed.

Lemma expand_contractions_absent a table s :
  Forall (fun ce => occurs a (fst ce) = true) table ->
  occurs a s = false -> expand_contractions table s = s.
Proof.
  unfold expand_contractions. intros Ht. revert s.
  induction Ht as [|ce table Hce _ IH]; intros s Hs; [reflexivity|].
  simpl. rewrite (replace_absent a _ _ _ Hce Hs). now apply IH.
Qed.

Lemma contractions_have_apostrophe :
  Forall (fun ce => occurs apostrophe (fst ce) = true) contractions.
Proof. repeat constructor. Qed.

(** C1.  The contraction loop never fires: the apostrophe of every table
    key has already been turned into a blank by the punctuation step, so
    [normalize_text] is the cleaning step alone.  On a text containing
    "what's" the result holds "what s" and not the expansion "what is". *)
Theorem normalize_text_never_expands :
  (forall text, normalize_text text = clean_text text)
  /\ normalize_text "what's on the menu" = "what s on the menu"
  /\ contains "what is" (normalize_text "what's on the menu") = false
  /\ contains "do not" (normalize_text "Don't worry") = false.
Proof.
  split; [|repeat split; reflexivity].
  intros text. unfold normalize_text.
  apply (expand_contractions_absent apostrophe).
  - exact contractions_have_apostrophe.
  - apply (all_chars_occurs word_or_space); [reflexivity|].
    apply all_chars_clean_text.
Qed.

Example detect_hours :
  detect_intent exact_ratio no_ratio "what time do you open" = "hours_query".
Proof. vm_compute. reflexivity. Qed.

Example detect_unknown :
  detect_intent exact_ratio no_ratio "zzz yyy xxx www vvv" = "unknown".
Proof. vm_compute. reflexivity. Qed.

Example detect_short :
  detect_intent exact_ratio no_ratio "zzz yyy" = "menu_query".
Proof. vm_compute. reflexivity. Qed.

(** ** Maxima *)

Lemma fold_max_ge_init (r : list Z) (x : Z) : x <= fold_left Z.max r x.
Proof.
  revert x. induction r as [|y r IH]; intros x; simpl; [lia|].
  specialize (IH (Z.max x y)). lia.
Qed.

Lemma fold_max_ge_in (r : list Z) (x y : Z) :
  In y r -> y <= fold_left Z.max r x.
Proof.
  revert x. induction r as [|z r IH]; intros x; simpl; [tauto|].
  intros [->|Hin].
  - pose proof (fold_max_ge_init r (Z.max x y)). lia.
  - now apply IH.
Qed.

Lemma fold_max_le (r : list Z) (x b : Z) :
  x <= b -> (forall y, In y r -> y <= b) -> fold_left Z.max r x <= b.
Proof.
  revert x. induction r as [|z r IH]; intros x Hx Hr; simpl; [exact Hx|].
  apply IH.
  - specialize (Hr z (or_introl eq_refl)). lia.
  - intros y Hy. apply Hr. now right.
Qed.

Lemma fold_max_fold_right (r : list Z) (x : Z) :
  fold_left Z.max r x = Z.max x (fold_right Z.max x r).
Proof.
  revert x. induction r as [|z r IH]; intros x; simpl; [lia|].
  rewrite IH.
  assert (H : fold_right Z.max (Z.max x z) r = Z.max z (fold_right Z.max x r)).
  { clear IH. induction r as [|w r IHr]; simpl; lia. }
  lia.
Qed.

Lemma max_or_zero_nonneg xs : 0 <= max_or_zero xs.
Proof. unfold max_or_zero. induction xs as [|x xs IH]; simpl; lia. Qed.

(** A non-empty list whose head is not negative: Python's [max] and the
    greatest value with floor 0 agree. *)
Lemma py_max_max_or_zero x r :
  0 <= x -> fold_left Z.max r x = max_or_zero (x :: r).
Proof.
  intros Hx. rewrite fold_max_fold_right. unfold max_or_zero. simpl.
  assert (H : fold_right Z.max x r = Z.max x (fold_right Z.max 0 r)).
  { induction r as [|z r IH]; simpl; lia. }
  lia.
Qed.

(** ** The score of one intent *)

Section IntentProofs.

Variables ratio partial_ratio : string -> string -> Z.

Local Abbreviation score_of := (calculate_intent_score ratio partial_ratio).
Local Abbreviation scores := (intent_scores ratio partial_ratio).
Local Abbreviation detect := (detect_intent ratio partial_ratio).

Lemma best_match_from_ge (words : list string) (k : string) (b : Z) :
  b <= fold_left
         (fun best w =>
            if ((2 <? String.length w) && (2 <? String.length k))%nat
            then Z.max best (ratio w k) else best) words b.
Proof.
  revert b. induction words as [|w words IH]; intros b; simpl; [lia|].
  destruct ((2 <? String.length w) && (2 <? String.length k))%nat.
  - specialize (IH (Z.max b (ratio w k))). lia.
  - apply IH.
Qed.

Lemma best_match_nonneg words k : 0 <= best_match ratio words k.
Proof. apply best_match_from_ge. Qed.

Lemma best_match_le words k :
  (forall a b, ratio a b <= 100) -> best_match ratio words k <= 100.
Proof.
  intros Hr. unfold best_match.
  assert (H : forall b, b <= 100 ->
    fold_left
      (fun best w =>
         if ((2 <? String.length w) && (2 <? String.length k))%nat
         then Z.max best (ratio w k) else best) words b <= 100).
  { induction words as [|w words IH]; intros b Hb; simpl; [exact Hb|].
    destruct ((2 <? String.length w) && (2 <? String.length k))%nat;
      apply IH; [specialize (Hr w k); lia|exact Hb]. }
  apply H. lia.
Qed.

(** The code's inner loop computes the best ratio the specification
    describes. *)
Lemma best_match_spec words k :
  best_match ratio words k = spec_best_ratio ratio words k.
Proof.
  unfold best_match, spec_best_ratio, max_or_zero.
  assert (H : forall b, 0 <= b ->
    fold_left
      (fun best w =>
         if ((2 <? String.length w) && (2 <? String.length k))%nat
         then Z.max best (ratio w k) else best) words b
    = Z.max b (fold_right Z.max 0
        (map (fun w => ratio w k)
           (filter (fun w => ((2 <? String.length w) && (2 <? String.length k))%nat)
              words)))).
  { induction words as [|w words IH]; intros b Hb; cbn [fold_left filter].
    - cbn. lia.
    - destruct ((2 <? String.length w) && (2 <? String.length k))%nat;
        cbn [map fold_right]; rewrite IH; lia. }
  rewrite H by lia.
  pose proof (max_or_zero_nonneg
    (map (fun w => ratio w k)
       (filter (fun w => ((2 <? String.length w) && (2 <? String.length k))%nat)
          words))) as Hn.
  unfold max_or_zero in Hn. lia.
Qed.

(** [user_words] is a set: the order in which the loop visits it does not
    change [best_match]. *)
Lemma best_match_permutation words words' k :
  Permutation words words' ->
  best_match ratio words k = best_match ratio words' k.
Proof.
  intros Hp. unfold best_match. generalize 0.
  induction Hp as [|w l l' _ IH|w w' l|l l' l'' _ IH1 _ IH2]; intros b;
    cbn [fold_left].
  - reflexivity.
  - apply IH.
  - f_equal.
    destruct ((2 <? String.length w)%nat && (2 <? String.length k)%nat),
             ((2 <? String.length w')%nat && (2 <? String.length k)%nat); lia.
  - now rewrite IH1.
Qed.

Lemma word_score_nonneg words k : 0 <= word_score ratio words k.
Proof.
  unfold word_score. destruct (mem k words); [lia|apply best_match_nonneg].
Qed.

Lemma word_score_le words k :
  (forall a b, ratio a b <= 100) -> word_score ratio words k <= 100.
Proof.
  intros Hr. unfold word_score.
  destruct (mem k words); [lia|now apply best_match_le].
Qed.

Lemma mem_In x l : mem x l = true <-> In x l.
Proof.
  unfold mem. rewrite existsb_exists. split.
  - intros (y & Hy & E). apply String.eqb_eq in E. now subst.
  - intros H. exists x. split; [exact H|apply String.eqb_refl].
Qed.

Lemma recorded_scores_le text kws :
  (forall a b, ratio a b <= 100) -> (forall a b, partial_ratio a b <= 100) ->
  forall y, In y (recorded_scores ratio partial_ratio text kws) -> y <= 100.
Proof.
  intros Hr Hp y Hy. unfold recorded_scores in Hy.
  apply in_app_or in Hy as [Hy|Hy]; apply in_map_iff in Hy as (k & <- & _).
  - now apply word_score_le.
  - apply Hp.
Qed.

Lemma score_of_nonneg text kws : 0 <= score_of text kws.
Proof.
  unfold calculate_intent_score, recorded_scores.
  destruct kws as [|k kws]; simpl; [lia|].
  pose proof (word_score_nonneg (nodup string_dec (split text)) k).
  match goal with |- 0 <= fold_left Z.max ?r ?x =>
    pose proof (fold_max_ge_init r x) end.
  lia.
Qed.

Lemma score_of_le text kws :
  (forall a b, ratio a b <= 100) -> (forall a b, partial_ratio a b <= 100) ->
  score_of text kws <= 100.
Proof.
  intros Hr Hp. unfold calculate_intent_score.
  pose proof (recorded_scores_le text kws Hr Hp) as H.
  destruct (recorded_scores ratio partial_ratio text kws) as [|x r]; simpl; [lia|].
  apply fold_max_le.
  - apply H. now left.
  - intros y Hy. apply H. now right.
Qed.

Lemma score_of_token text kws k :
  In k kws -> In k (split text) -> 100 <= score_of text kws.
Proof.
  intros Hk Ht. unfold calculate_intent_score.
  assert (Hin : In 100 (recorded_scores ratio partial_ratio text kws)).
  { unfold recorded_scores. apply in_or_app. left.
    apply in_map_iff. exists k. split; [|exact Hk].
    unfold word_score.
    assert (E : mem k (nodup string_dec (split text)) = true)
      by (apply mem_In, nodup_In, Ht).
    now rewrite E. }
  destruct (recorded_scores ratio partial_ratio text kws) as [|x r];
    [destruct Hin|]. simpl.
  destruct Hin as [->|Hin]; [apply fold_max_ge_init|now apply fold_max_ge_in].
Qed.

Lemma recorded_scores_no_token text kws :
  (forall k, In k kws -> ~ In k (split text)) ->
  recorded_scores ratio partial_ratio text kws =
  (map (spec_best_ratio ratio (nodup string_dec (split text))) kws
   ++ map (partial_ratio text) (filter multi_word kws))%list.
Proof.
  intros Hno. unfold recorded_scores. f_equal.
  apply map_ext_in. intros k Hk. unfold word_score.
  destruct (mem k (nodup string_dec (split text))) eqn:E.
  - apply mem_In, nodup_In in E. now destruct (Hno k Hk).
  - apply best_match_spec.
Qed.

(** C6.  Provided the library's [ratio] and [partial_ratio] never exceed
    100, [calculate_intent_score] returns an integer between 0 and 100; it
    returns 0 for an empty keyword list; it returns 100 as soon as one
    keyword is a token of the text; and when no keyword is a token it is
    the maximum of the per-keyword best ratios (over tokens and keywords
    both longer than two characters) and of the partial ratios of the
    multi-word keywords. *)
Theorem calculate_intent_score_spec :
  (forall a b, ratio a b <= 100) -> (forall a b, partial_ratio a b <= 100) ->
  forall text keywords,
    0 <= score_of text keywords <= 100
    /\ score_of text [] = 0
    /\ ((exists k, In k keywords /\ In k (split text)) ->
        score_of text keywords = 100)
    /\ ((forall k, In k keywords -> ~ In k (split text)) ->
        score_of text keywords = spec_fuzzy_score ratio partial_ratio text keywords).
Proof.
  intros Hr Hp text kws.
  pose proof (score_of_nonneg text kws) as Hlo.
  pose proof (score_of_le text kws Hr Hp) as Hhi.
  repeat split; try assumption.
  - intros (k & Hk & Ht). pose proof (score_of_token text kws k Hk Ht). lia.
  - intros Hno. unfold calculate_intent_score, spec_fuzzy_score.
    rewrite (recorded_scores_no_token text kws Hno).
    destruct kws as [|k kws]; [reflexivity|]. simpl.
    rewrite py_max_max_or_zero; [reflexivity|].
    rewrite <- best_match_spec. apply best_match_nonneg.
Qed.


(** ** The keyword override and the score table *)

Lemma keyword_override_ge n kws s : s <= keyword_override n s kws.
Proof.
  unfold keyword_override. revert s.
  induction kws as [|k kws IH]; intros s; cbn [fold_left]; [lia|].
  match goal with |- _ <= fold_left _ _ ?s' => specialize (IH s') end.
  destruct (standalone k n); [lia|].
  destruct ((3 <? String.length k)%nat && contains k n); lia.
Qed.

Lemma keyword_override_le n kws s : s <= 100 -> keyword_override n s kws <= 100.
Proof.
  unfold keyword_override. revert s.
  induction kws as [|k kws IH]; intros s Hs; cbn [fold_left]; [exact Hs|].
  apply IH.
  destruct (standalone k n); [lia|].
  destruct ((3 <? String.length k)%nat && contains k n); lia.
Qed.

Lemma keyword_override_standalone n kws s k :
  In k kws -> standalone k n = true -> 100 <= keyword_override n s kws.
Proof.
  unfold keyword_override. revert s.
  induction kws as [|k' kws IH]; intros s Hin Hst; [destruct Hin|].
  cbn [fold_left]. destruct Hin as [->|Hin].
  - rewrite Hst.
    pose proof (keyword_override_ge n kws (Z.max s 100)) as H.
    unfold keyword_override in H. lia.
  - now apply IH.
Qed.

Lemma keyword_override_substring n kws s k :
  In k kws -> (3 < String.length k)%nat -> contains k n = true ->
  90 <= keyword_override n s kws.
Proof.
  unfold keyword_override. revert s.
  induction kws as [|k' kws IH]; intros s Hin Hlen Hsub; [destruct Hin|].
  cbn [fold_left]. destruct Hin as [->|Hin].
  - apply Nat.ltb_lt in Hlen. rewrite Hlen, Hsub. cbn [andb].
    match goal with |- _ <= fold_left ?f _ ?s' =>
      pose proof (keyword_override_ge n kws s') as H end.
    unfold keyword_override in H.
    destruct (standalone k n); lia.
  - now apply IH.
Qed.

Lemma get_scores_of table n intent :
  get (scores_of ratio partial_ratio table n) intent 0 =
  match find (fun ik => String.eqb (fst ik) intent) table with
  | Some ik => intent_score ratio partial_ratio n (snd ik)
  | None => 0
  end.
Proof.
  unfold get, scores_of.
  induction table as [|[i kws] table IH]; cbn [map find fst snd]; [reflexivity|].
  destruct (String.eqb i intent); [reflexivity|exact IH].
Qed.

(** The table has one entry per intent, so an entry's score is the score
    of its keyword list. *)
Lemma get_intent_scores n intent keywords :
  In (intent, keywords) INTENT_KEYWORDS ->
  get (scores n) intent 0 = intent_score ratio partial_ratio n keywords.
Proof.
  intros Hin. unfold intent_scores. rewrite get_scores_of.
  unfold INTENT_KEYWORDS in Hin. cbn [In] in Hin.
  repeat (destruct Hin as [Hin|Hin]; [inversion Hin; subst; reflexivity|]).
  destruct Hin.
Qed.

(** C5.  For every text and every intent of the table: a keyword that
    stands in the normalised text as a word between blanks makes the
    intent's score 100 (the library's scores never exceeding 100), and a
    keyword longer than three characters that is a substring of the
    normalised text makes it at least 90. *)
Theorem detect_intent_score_override :
  forall user_msg intent keywords,
    In (intent, keywords) INTENT_KEYWORDS ->
    let normalized_msg := normalize_text user_msg in
    ((forall a b, ratio a b <= 100) -> (forall a b, partial_ratio a b <= 100) ->
     (exists k, In k keywords /\ standalone k normalized_msg = true) ->
     get (scores normalized_msg) intent 0 = 100)
    /\ ((exists k, In k keywords /\ (3 < String.length k)%nat
                   /\ contains k normalized_msg = true) ->
        90 <= get (scores normalized_msg) intent 0).
Proof.
  intros user_msg intent kws Hin n.
  rewrite (get_intent_scores n intent kws Hin). unfold intent_score. split.
  - intros Hr Hp (k & Hk & Hst).
    pose proof (keyword_override_standalone n kws (score_of n kws) k Hk Hst).
    pose proof (keyword_override_le n kws (score_of n kws) (score_of_le n kws Hr Hp)).
    lia.
  - intros (k & Hk & Hlen & Hsub).
    now apply (keyword_override_substring n kws _ k).
Qed.


(** ** The decision policy *)

Lemma orelse_some {A : Type} (a b : option A) r :
  a <|> b = Some r -> a = Some r \/ (a = None /\ b = Some r).
Proof. destruct a; cbn; intros H; [left|right]; auto. Qed.

Lemma decide_greeting s n : 80 < get s "greeting" 0 -> decide s n = "greeting".
Proof.
  intros H. apply Z.ltb_lt in H.
  unfold decide, scored_rules, rule_greeting. now rewrite H.
Qed.

Lemma rule_greeting_none s : get s "greeting" 0 <= 80 -> rule_greeting s = None.
Proof. intros H. unfold rule_greeting. apply Z.ltb_ge in H. now rewrite H. Qed.

Lemma rule_farewell_none s : get s "farewell" 0 <= 80 -> rule_farewell s = None.
Proof. intros H. unfold rule_farewell. apply Z.ltb_ge in H. now rewrite H. Qed.

Lemma rule_branch_none s :
  get s "branch_query" 0 <= 70 \/ get s "branch_query" 0 < get s "menu_query" 0 ->
  rule_branch s = None.
Proof.
  intros H. unfold rule_branch.
  destruct (70 <? get s "branch_query" 0) eqn:E; [|reflexivity].
  apply Z.ltb_lt in E. destruct H as [H|H]; [lia|].
  apply Z.ltb_lt in H. now rewrite H.
Qed.

Lemma rule_faq_none s : get s "faq_query" 0 <= 70 -> rule_faq s = None.
Proof. intros H. unfold rule_faq. apply Z.ltb_ge in H. now rewrite H. Qed.

Lemma rule_about_none s : 60 <= get s "menu_query" 0 -> rule_about s = None.
Proof.
  intros H. unfold rule_about. apply Z.ltb_ge in H. rewrite H.
  now rewrite andb_false_r.
Qed.

Lemma rule_menu_some s : 50 < get s "menu_query" 0 -> rule_menu s = Some "menu_query".
Proof. intros H. unfold rule_menu. apply Z.ltb_lt in H. now rewrite H. Qed.

Lemma argmax_from_in best best_v l :
  argmax_from best best_v l = best \/ In (argmax_from best best_v l) (map fst l).
Proof.
  revert best best_v. induction l as [|[k v] l IH]; intros best best_v; cbn.
  - now left.
  - destruct (best_v <? v).
    + destruct (IH k v) as [->|H]; auto.
    + destruct (IH best best_v) as [->|H]; auto.
Qed.

Lemma argmax_key_in s i : argmax_key s = Some i -> In i (map fst s).
Proof.
  destruct s as [|[k v] l]; cbn; [discriminate|]. intros [= <-].
  destruct (argmax_from_in k v l) as [->|H]; auto.
Qed.

Lemma map_fst_intent_scores n : map fst (scores n) = intent_labels.
Proof.
  unfold intent_scores, scores_of. rewrite map_map. reflexivity.
Qed.

Lemma rules_label_generic (s : list (string * Z)) (n i : string) :
  scored_rules s n = Some i -> In i intent_labels \/ In i (map fst s).
Proof.
  unfold scored_rules. intros H.
  repeat (apply orelse_some in H as [H|[_ H]]; [revert H|]).
  8: { unfold rule_best in H.
       destruct (py_max (map snd s)) as [m|]; [|discriminate].
       destruct (50 <? m); [|discriminate].
       right. now apply argmax_key_in. }
  all: unfold rule_greeting, rule_farewell, rule_branch, rule_faq, rule_hours,
         rule_about, rule_menu;
       repeat match goal with
              | |- context [if ?c then _ else _] => destruct c
              end;
       intros H; inversion H; left; unfold intent_labels, In; tauto.
Qed.

(** Every rule that reads the scores answers with an intent of the table. *)
Lemma scored_rules_label n i :
  scored_rules (scores n) n = Some i -> In i intent_labels.
Proof.
  intros H. apply rules_label_generic in H.
  rewrite map_fst_intent_scores in H. tauto.
Qed.

Lemma unknown_not_label : ~ In "unknown" intent_labels.
Proof. cbn. intros H. repeat (destruct H as [H|H]; [discriminate|]). exact H. Qed.

(** C9.  The greeting rule comes first: a greeting score above 80 makes
    [detect_intent] answer "greeting" whatever the other scores are, and
    the message "Hi there!" is a greeting for every behaviour of the
    library functions. *)
Theorem greeting_rule_first :
  (forall user_msg,
      80 < get (scores (normalize_text user_msg)) "greeting" 0 ->
      detect user_msg = "greeting")
  /\ detect "Hi there!" = "greeting".
Proof.
  split.
  - intros user_msg H. now apply decide_greeting.
  - unfold detect_intent.
    change (normalize_text "Hi there!") with "hi there".
    apply decide_greeting.
    rewrite (get_intent_scores "hi there" "greeting" _ (or_introl eq_refl)).
    unfold intent_score.
    match goal with |- 80 < keyword_override _ ?s ?kws =>
      pose proof (keyword_override_standalone "hi there" kws s "hi"
                    (or_introl eq_refl) eq_refl) end.
    lia.
Qed.


Lemma decide_hours (s : list (string * Z)) (n : string) :
  get s "greeting" 0 <= 80 ->
  get s "farewell" 0 <= 80 ->
  (get s "branch_query" 0 <= 70
   \/ get s "branch_query" 0 < get s "menu_query" 0) ->
  get s "faq_query" 0 <= 70 ->
  70 < get s "hours_query" 0 ->
  (70 < get s "menu_query" 0 ->
     (decide s n = "hours_query"
      <-> existsb (fun w => contains w n) hours_words = true)
     /\ (existsb (fun w => contains w n) hours_words = false ->
         decide s n =
         match rule_about s <|> rule_menu s <|> rule_best s <|> rule_short n with
         | Some intent => intent
         | None => "unknown"
         end))
  /\ (get s "menu_query" 0 <= 70 -> decide s n = "hours_query").
Proof.
  intros Hg Hf Hb Hq Hh.
  unfold decide, scored_rules.
  rewrite (rule_greeting_none s Hg), (rule_farewell_none s Hf),
    (rule_branch_none s Hb), (rule_faq_none s Hq).
  cbn [orelse]. unfold rule_hours.
  apply Z.ltb_lt in Hh. rewrite Hh. split.
  - intros Hm. pose proof Hm as Hm'. apply Z.ltb_lt in Hm'. rewrite Hm'.
    destruct (existsb (fun w => contains w n) hours_words) eqn:E; cbn [orelse].
    + split; [tauto|discriminate].
    + rewrite (rule_about_none s) by lia.
      rewrite (rule_menu_some s) by lia. cbn [orelse].
      split; [|reflexivity]. split; discriminate.
  - intros Hm. apply Z.ltb_ge in Hm. now rewrite Hm.
Qed.

(** C3.  When the greeting, farewell, branch and FAQ rules have not
    returned and the hours score exceeds 70: with a menu score above 70 the
    answer is "hours_query" exactly when the normalised text contains one
    of "open", "close", "timing", "hour", and otherwise the later rules
    decide; with a menu score of at most 70 the answer is "hours_query". *)
Theorem hours_rule :
  forall user_msg,
    let normalized_msg := normalize_text user_msg in
    let s := scores normalized_msg in
    get s "greeting" 0 <= 80 ->
    get s "farewell" 0 <= 80 ->
    (get s "branch_query" 0 <= 70
     \/ get s "branch_query" 0 < get s "menu_query" 0) ->
    get s "faq_query" 0 <= 70 ->
    70 < get s "hours_query" 0 ->
    (70 < get s "menu_query" 0 ->
       (detect user_msg = "hours_query"
        <-> existsb (fun w => contains w normalized_msg) hours_words = true)
       /\ (existsb (fun w => contains w normalized_msg) hours_words = false ->
           detect user_msg =
           match rule_about s <|> rule_menu s <|> rule_best s
                 <|> rule_short normalized_msg with
           | Some intent => intent
           | None => "unknown"
           end))
    /\ (get s "menu_query" 0 <= 70 -> detect user_msg = "hours_query").
Proof.
  intros user_msg normalized_msg s. exact (decide_hours s normalized_msg).
Qed.

End IntentProofs.

(** ** Dict keys *)

Lemma key_eqb_spec a b :
  key_eqb a b = true <->
  hashable a = true /\ hashable b = true /\ key_norm a = key_norm b.
Proof.
  destruct a as [|x|x|x|x|x], b as [|y|y|y|y|y]; cbn;
    try (split; [discriminate|intros (_ & _ & H); discriminate]);
    try (split; [discriminate|intros (H & _ & _); discriminate]);
    try (split; [discriminate|intros (_ & H & _); discriminate]).
  - tauto.
  - destruct x, y; cbn; split; try discriminate; auto;
      intros (_ & _ & H); discriminate.
  - rewrite Z.eqb_eq. split; [intros ->; auto|intros (_ & _ & [= ->]); reflexivity].
  - rewrite Z.eqb_eq. split; [intros ->; auto|intros (_ & _ & [= ->]); reflexivity].
  - rewrite Z.eqb_eq. split; [intros ->; auto|intros (_ & _ & [= ->]); reflexivity].
  - rewrite String.eqb_eq. split; [intros ->; auto|intros (_ & _ & [= ->]); reflexivity].
Qed.

Lemma key_eqb_refl a : hashable a = true -> key_eqb a a = true.
Proof. intros H. apply key_eqb_spec. auto. Qed.

Lemma key_eqb_trans_l k0 k k' :
  key_eqb k0 k = true -> key_eqb k0 k' = key_eqb k k'.
Proof.
  intros H. apply key_eqb_spec in H as (H0 & H1 & E).
  destruct (key_eqb k k') eqn:E'.
  - apply key_eqb_spec in E' as (_ & H2 & E'). apply key_eqb_spec.
    repeat split; auto. congruence.
  - destruct (key_eqb k0 k') eqn:E''; [|reflexivity].
    apply key_eqb_spec in E'' as (_ & H2 & E'').
    assert (key_eqb k k' = true) by (apply key_eqb_spec; repeat split; auto; congruence).
    congruence.
Qed.

Lemma map_get_set m k v k' :
  map_get (map_set m k v) k' = if key_eqb k k' then Some v else map_get m k'.
Proof.
  induction m as [|[k0 old] m IH]; cbn [map_set map_get].
  - reflexivity.
  - destruct (key_eqb k0 k) eqn:E; cbn [map_get].
    + rewrite (key_eqb_trans_l _ _ k' E). now destruct (key_eqb k k').
    + rewrite IH. destruct (key_eqb k0 k') eqn:E0; [|reflexivity].
      destruct (key_eqb k k') eqn:E1; [|reflexivity].
      apply key_eqb_spec in E0 as (H0 & H2 & E0).
      apply key_eqb_spec in E1 as (H1 & _ & E1).
      assert (key_eqb k0 k = true)
        by (apply key_eqb_spec; repeat split; auto; congruence).
      congruence.
Qed.

Lemma find_append {A : Type} (f : A -> bool) (xs ys : list A) :
  find f (xs ++ ys)%list =
  match find f xs with
  | Some x => Some x
  | None => find f ys
  end.
Proof.
  induction xs as [|x xs IH]; cbn [find app]; [reflexivity|].
  destruct (f x); [reflexivity|exact IH].
Qed.

(** The dict after a run of assignments answers with the value assigned
    last. *)
Lemma map_get_assignments pairs m k :
  map_get (fold_left (fun m p => map_set m (fst p) (snd p)) pairs m) k =
  match last_owner pairs k with
  | Some owner => Some owner
  | None => map_get m k
  end.
Proof.
  unfold last_owner, first_owner. revert m.
  induction pairs as [|[c o] pairs IH]; intros m; cbn [fold_left rev fst snd].
  - reflexivity.
  - rewrite IH, find_append.
    destruct (find (fun p => key_eqb (fst p) k) (rev pairs)); cbn [option_map].
    + reflexivity.
    + cbn [find fst]. rewrite map_get_set.
      destruct (key_eqb c k); reflexivity.
Qed.

(** ** The corpus of [search_menu] *)

Lemma for_each_app {A S : Type} (body : A -> S -> result S) xs ys st :
  for_each body (xs ++ ys)%list st =
  (st' <- for_each body xs st ;; for_each body ys st').
Proof.
  revert st. induction xs as [|x xs IH]; intros st; cbn; [reflexivity|].
  destruct (body x st) as [st'|e]; cbn; [apply IH|reflexivity].
Qed.

Lemma add_all_app xs ys st :
  add_all (xs ++ ys)%list st = (st' <- add_all xs st ;; add_all ys st').
Proof. apply for_each_app. Qed.

Lemma for_each_flat_map {A : Type} (g : A -> list (value * value))
  (body : A -> corpus -> result corpus) xs st :
  (forall x st, body x st = add_all (g x) st) ->
  for_each body xs st = add_all (flat_map g xs) st.
Proof.
  intros Hbody. revert st.
  induction xs as [|x xs IH]; intros st; cbn [for_each flat_map]; [reflexivity|].
  rewrite add_all_app, Hbody.
  destruct (add_all (g x) st) as [st'|e]; cbn [bind]; [apply IH|reflexivity].
Qed.

Lemma add_all_spec pairs st :
  add_all pairs st =
  if forallb (fun p => hashable (fst p)) pairs
  then Ok (Corpus (all_items st ++ map fst pairs)
             (fold_left (fun m p => map_set m (fst p) (snd p)) pairs (item_map st)))
  else Raise TypeError.
Proof.
  unfold add_all. revert st.
  induction pairs as [|[c o] pairs IH]; intros [items m]; cbn [for_each forallb fst snd].
  - cbn. now rewrite app_nil_r.
  - unfold add at 1. destruct (hashable c); cbn [bind andb]; [|reflexivity].
    rewrite IH. cbn [all_items item_map map fold_left fst snd].
    now rewrite <- app_assoc.
Qed.

Section SearchProofs.

Variable py_str : value -> string.
Variable extract_score : string -> value -> option Z.

Lemma add_variant_pairs name v st :
  add_variant py_str name v st = add_all (variant_pairs py_str name v) st.
Proof.
  unfold add_variant, variant_pairs, add_all.
  destruct v as [| | | | |fields]; try reflexivity.
  destruct (lookup fields "size"); cbn [for_each fst snd]; [|reflexivity].
  match goal with |- context [add ?c name st] => now destruct (add c name st) end.
Qed.

Lemma add_flavour_pairs name f st :
  add_flavour py_str name f st = add_all (flavour_pairs py_str name f) st.
Proof.
  unfold add_flavour, flavour_pairs, add_all.
  destruct f as [| | | | |fields]; try reflexivity.
  destruct (lookup fields "name") as [fname|]; cbn [for_each fst snd]; [|reflexivity].
    match goal with |- context [add ?c name st] =>
      destruct (add c name st) as [st1|] end; cbn [bind]; [|reflexivity].
    now destruct (add fname name st1).
Qed.

Lemma add_description_pairs name fields st :
  match lookup fields "description" with
  | Some desc => if truthy desc then add desc name st else Ok st
  | None => Ok st
  end = add_all (description_pairs name fields) st.
Proof.
  unfold description_pairs, add_all.
  destruct (lookup fields "description") as [desc|]; [|reflexivity].
  destruct (truthy desc); [|reflexivity].
  cbn [for_each fst snd]. now destruct (add desc name st).
Qed.

Lemma add_item_pairs item st :
  add_item py_str item st = add_all (item_pairs py_str item) st.
Proof.
  unfold add_item, item_pairs.
  destruct item as [| | | | |fields]; try reflexivity.
  destruct (lookup fields "name") as [name|]; [|reflexivity].
  rewrite add_all_app.
  change (add_all ((name, name) :: description_pairs name fields) st)
    with (st1 <- add name name st ;; add_all (description_pairs name fields) st1).
  destruct (add name name st) as [st1|e]; cbn [bind]; [|reflexivity].
  rewrite add_description_pairs.
  destruct (add_all (description_pairs name fields) st1) as [st2|e];
    cbn [bind]; [|reflexivity].
  rewrite add_all_app.
  assert (Hv :
    match lookup fields "variants" with
    | Some (VList variants) => for_each (add_variant py_str name) variants st2
    | _ => Ok st2
    end
    = add_all
        match lookup fields "variants" with
        | Some (VList variants) => flat_map (variant_pairs py_str name) variants
        | _ => []
        end st2).
  { destruct (lookup fields "variants") as [[| | | |variants|]|]; try reflexivity.
    apply for_each_flat_map. apply add_variant_pairs. }
  rewrite Hv. clear Hv.
  match goal with |- context [add_all ?l st2] =>
    destruct (add_all l st2) as [st3|e] end; cbn [bind]; [|reflexivity].
  destruct (lookup fields "flavours") as [[| | | |flavours|]|]; try reflexivity.
  apply for_each_flat_map. apply add_flavour_pairs.
Qed.

Lemma add_category_pairs entry st :
  add_category py_str entry st = add_all (category_pairs py_str entry) st.
Proof.
  unfold add_category, category_pairs.
  destruct (snd entry) as [| | | |items|]; try reflexivity.
  apply for_each_flat_map. apply add_item_pairs.
Qed.

(** The loops of [search_menu] add the contributions of the catalog, in
    order; the first candidate that cannot be hashed raises. *)
Lemma build_corpus_contributions menu :
  build_corpus py_str menu =
  if forallb (fun p => hashable (fst p)) (contributions py_str menu)
  then Ok (Corpus (map fst (contributions py_str menu))
             (fold_left (fun m p => map_set m (fst p) (snd p))
                (contributions py_str menu) []))
  else Raise TypeError.
Proof.
  unfold build_corpus, contributions.
  rewrite (for_each_flat_map (category_pairs py_str)) by apply add_category_pairs.
  now rewrite add_all_spec.
Qed.


(** ** What [extractOne] returns *)

Lemma first_max_from_in {A : Type} (best : A * Z) l :
  first_max_from best l = best \/ In (first_max_from best l) l.
Proof.
  revert best. induction l as [|p l IH]; intros best; cbn; [now left|].
  destruct (snd best <? snd p).
  - destruct (IH p) as [->|H]; auto.
  - destruct (IH best) as [->|H]; auto.
Qed.

Lemma first_max_in {A : Type} (l : list (A * Z)) p :
  first_max l = Some p -> In p l.
Proof.
  destruct l as [|q l]; cbn; [discriminate|]. intros [= <-].
  destruct (first_max_from_in q l) as [->|H]; auto.
Qed.

Lemma scored_choices_in query choices pairs :
  scored_choices extract_score query choices = Ok pairs ->
  forall c score, In (c, score) pairs -> In c choices.
Proof.
  revert pairs. induction choices as [|c0 choices IH]; intros pairs; cbn.
  - intros [= <-] c score [].
  - destruct (extract_score query c0) as [s0|]; [|discriminate].
    destruct (scored_choices extract_score query choices) as [rest|]; [|discriminate].
    cbn. intros [= <-] c score Hin.
    destruct (0 <=? s0).
    + destruct Hin as [[= -> _]|Hin]; [now left|right; eauto].
    + right; eauto.
Qed.

Lemma extractOne_in query choices matched score :
  extractOne extract_score query choices = Ok (Some (matched, score)) ->
  In matched choices.
Proof.
  unfold extractOne.
  destruct (scored_choices extract_score query choices) as [pairs|] eqn:E;
    [|discriminate].
  cbn. intros [= H]. apply first_max_in in H.
  eapply scored_choices_in; eauto.
Qed.

(** ** Owners *)

Lemma first_owner_in pairs cand owner :
  first_owner pairs cand = Some owner -> exists c, In (c, owner) pairs.
Proof.
  unfold first_owner.
  destruct (find (fun p => key_eqb (fst p) cand) pairs) as [[c o]|] eqn:E;
    [|discriminate].
  cbn. intros [= <-]. apply find_some in E as [Hin _]. eauto.
Qed.

Lemma last_owner_in pairs cand owner :
  last_owner pairs cand = Some owner -> exists c, In (c, owner) pairs.
Proof.
  unfold last_owner. intros H. apply first_owner_in in H as [c H].
  exists c. now apply in_rev.
Qed.

Lemma last_owner_exists pairs cand :
  In cand (map fst pairs) -> hashable cand = true ->
  exists owner, last_owner pairs cand = Some owner.
Proof.
  intros Hin Hh. unfold last_owner, first_owner.
  destruct (find (fun p => key_eqb (fst p) cand) (rev pairs)) as [[c o]|] eqn:E.
  - now exists o.
  - apply in_map_iff in Hin as ([c o] & <- & Hin).
    apply in_rev in Hin. apply (find_none _ _ E) in Hin.
    cbn in Hin. now rewrite key_eqb_refl in Hin.
Qed.

Lemma item_pairs_owner item c o :
  In (c, o) (item_pairs py_str item) ->
  exists fields, item = VDict fields /\ lookup fields "name" = Some o.
Proof.
  unfold item_pairs.
  destruct item as [| | | | |fields]; try (intros []).
  destruct (lookup fields "name") as [name|] eqn:E; [|intros []].
  intros Hin. exists fields. split; [reflexivity|]. rewrite E. f_equal.
  apply in_app_or in Hin as [Hin|Hin].
  - destruct Hin as [[= _ <-]|Hin]; [reflexivity|].
    unfold description_pairs in Hin.
    destruct (lookup fields "description") as [desc|]; [|destruct Hin].
    destruct (truthy desc); [|destruct Hin].
    destruct Hin as [[= _ <-]|[]]. reflexivity.
  - apply in_app_or in Hin as [Hin|Hin].
    + destruct (lookup fields "variants") as [[| | | |variants|]|]; try (exfalso; exact Hin).
      apply in_flat_map in Hin as (v & _ & Hin). unfold variant_pairs in Hin.
      destruct v as [| | | | |vf]; try (exfalso; exact Hin).
      destruct (lookup vf "size"); [|destruct Hin].
      destruct Hin as [[= _ <-]|[]]. reflexivity.
    + destruct (lookup fields "flavours") as [[| | | |flavours|]|]; try (exfalso; exact Hin).
      apply in_flat_map in Hin as (f & _ & Hin). unfold flavour_pairs in Hin.
      destruct f as [| | |s| |ff]; try (exfalso; exact Hin).
      * destruct Hin as [[= _ <-]|[[= _ <-]|[]]]; reflexivity.
      * destruct (lookup ff "name"); [|destruct Hin].
        destruct Hin as [[= _ <-]|[[= _ <-]|[]]]; reflexivity.
Qed.

(** Every contribution is owned by the name of an item of the catalog. *)
Lemma contributions_owner menu c o :
  In (c, o) (contributions py_str menu) -> is_item_name menu o.
Proof.
  unfold contributions. intros Hin.
  apply in_flat_map in Hin as ([category v] & Hcat & Hin).
  unfold category_pairs in Hin. cbn [snd] in Hin.
  destruct v as [| | | |items|]; try (exfalso; exact Hin).
  apply in_flat_map in Hin as (item & Hitem & Hin).
  apply item_pairs_owner in Hin as (fields & -> & Hname).
  exists category, items, fields. auto.
Qed.

(** ** [search_menu] on a catalog whose candidates can be hashed *)

Lemma search_menu_hashable user_msg menu :
  forallb (fun p => hashable (fst p)) (contributions py_str menu) = true ->
  search_menu py_str extract_score user_msg (VDict menu) =
  Ok match map fst (contributions py_str menu) with
     | [] => VNone
     | _ :: _ =>
         match extractOne extract_score user_msg
                 (map fst (contributions py_str menu)) with
         | Ok (Some (matched, score)) =>
             if 60 <=? score
             then match last_owner (contributions py_str menu) matched with
                  | Some owner => owner
                  | None => VNone
                  end
             else VNone
         | _ => VNone
         end
     end.
Proof.
  intros Hh. unfold search_menu.
  rewrite build_corpus_contributions, Hh. cbn [bind all_items item_map].
  destruct (map fst (contributions py_str menu)) as [|c0 choices]; [reflexivity|].
  destruct (extractOne extract_score user_msg (c0 :: choices))
    as [[[matched score]|]|e]; try reflexivity.
  destruct (60 <=? score); [|reflexivity].
  rewrite map_get_assignments. cbn [map_get].
  now destruct (last_owner (contributions py_str menu) matched).
Qed.

Lemma forallb_hashable_in pairs c :
  forallb (fun p : value * value => hashable (fst p)) pairs = true ->
  In c (map fst pairs) -> hashable c = true.
Proof.
  intros Hh Hin. apply in_map_iff in Hin as (p & <- & Hin).
  rewrite forallb_forall in Hh. now apply Hh.
Qed.

Lemma search_menu_resolves_to_last_owner_aux user_msg menu matched score :
  forallb (fun p => hashable (fst p)) (contributions py_str menu) = true ->
  extractOne extract_score user_msg (map fst (contributions py_str menu))
    = Ok (Some (matched, score)) ->
  60 <= score ->
  exists owner,
    last_owner (contributions py_str menu) matched = Some owner
    /\ search_menu py_str extract_score user_msg (VDict menu) = Ok owner.
Proof.
  intros Hh Hex Hscore.
  pose proof (extractOne_in _ _ _ _ Hex) as Hin.
  destruct (last_owner_exists _ _ Hin (forallb_hashable_in _ _ Hh Hin))
    as [owner Hown].
  exists owner. split; [exact Hown|].
  rewrite (search_menu_hashable user_msg menu Hh).
  rewrite Hex, Hown. apply Z.leb_le in Hscore. rewrite Hscore.
  destruct (map fst (contributions py_str menu)); [destruct Hin|reflexivity].
Qed.

(** C2, as the code has it.  [item_map] is assigned in catalog order and a
    later assignment to the same key replaces the earlier one: when the
    match clears the threshold, [search_menu] returns the name of the last
    item, in catalog order, that contributes the matched string. *)
Theorem search_menu_resolves_to_last_owner :
  forall user_msg menu matched score,
    forallb (fun p => hashable (fst p)) (contributions py_str menu) = true ->
    extractOne extract_score user_msg (map fst (contributions py_str menu))
      = Ok (Some (matched, score)) ->
    60 <= score ->
    exists owner,
      last_owner (contributions py_str menu) matched = Some owner
      /\ search_menu py_str extract_score user_msg (VDict menu) = Ok owner.
Proof.
  intros user_msg menu matched score.
  apply search_menu_resolves_to_last_owner_aux.
Qed.

(** C4, as the code has it.  On a catalog that is a dict and whose
    candidates (item names, descriptions, flavour names) can be hashed,
    [search_menu] does not raise.  Entries that are not dicts or have no
    "name" add nothing to the corpus.  The result is [None] when the corpus
    is empty, when [extractOne] gives no pair, and when the best score is
    below 60; otherwise it is the "name" field of an item of the catalog. *)
Theorem search_menu_total_on_hashable :
  forall user_msg menu,
    forallb (fun p => hashable (fst p)) (contributions py_str menu) = true ->
    let choices := map fst (contributions py_str menu) in
    (exists r, search_menu py_str extract_score user_msg (VDict menu) = Ok r)
    /\ (forall item st,
          match item with
          | VDict fields => lookup fields "name" = None
          | _ => True
          end ->
          add_item py_str item st = Ok st)
    /\ (choices = [] ->
        search_menu py_str extract_score user_msg (VDict menu) = Ok VNone)
    /\ (forall matched score,
          extractOne extract_score user_msg choices = Ok (Some (matched, score)) ->
          score < 60 ->
          search_menu py_str extract_score user_msg (VDict menu) = Ok VNone)
    /\ ((extractOne extract_score user_msg choices = Ok None
         \/ exists e, extractOne extract_score user_msg choices = Raise e) ->
        search_menu py_str extract_score user_msg (VDict menu) = Ok VNone)
    /\ (forall matched score,
          extractOne extract_score user_msg choices = Ok (Some (matched, score)) ->
          60 <= score ->
          exists name,
            search_menu py_str extract_score user_msg (VDict menu) = Ok name
            /\ is_item_name menu name).
Proof.
  intros user_msg menu Hh choices.
  pose proof (search_menu_hashable user_msg menu Hh) as Heq.
  fold choices in Heq.
  split; [rewrite Heq; eauto|].
  split.
  { intros item st Hitem. unfold add_item.
    destruct item as [| | | | |fields]; try reflexivity. now rewrite Hitem. }
  split; [intros E; rewrite Heq, E; reflexivity|].
  split.
  { intros matched score Hex Hscore. rewrite Heq, Hex.
    apply Z.leb_gt in Hscore. rewrite Hscore. now destruct choices. }
  split.
  { intros [Hex|[e Hex]]; rewrite Heq, Hex; now destruct choices. }
  intros matched score Hex Hscore.
  destruct (search_menu_resolves_to_last_owner_aux user_msg menu matched score Hh Hex Hscore)
    as (owner & Hown & Hres).
  exists owner. split; [exact Hres|].
  apply last_owner_in in Hown as [c Hc].
  now apply contributions_owner in Hc.
Qed.

End SearchProofs.

(** ** The FAQ resolver *)

Lemma first_max_from_ge {A : Type} (best : A * Z) l :
  snd best <= snd (first_max_from best l).
Proof.
  revert best. induction l as [|p l IH]; intros best; cbn; [lia|].
  destruct (snd best <? snd p) eqn:E.
  - apply Z.ltb_lt in E. specialize (IH p). lia.
  - apply IH.
Qed.

(** Starting the scan from a better pair changes the result only when the
    list holds nothing above that pair. *)
Lemma first_max_from_dominated {A : Type} (l : list (A * Z)) (a b : A * Z) :
  snd a <= snd b ->
  snd (first_max_from b l) = Z.max (snd b) (snd (first_max_from a l))
  /\ (snd b < snd (first_max_from a l) -> first_max_from a l = first_max_from b l).
Proof.
  revert a b. induction l as [|p l IH]; intros a b Hab; cbn.
  - split; lia.
  - destruct (snd a <? snd p) eqn:Ea, (snd b <? snd p) eqn:Eb.
    + pose proof (first_max_from_ge p l). apply Z.ltb_lt in Eb. split; [lia|reflexivity].
    + apply Z.ltb_ge in Eb. now apply IH.
    + apply Z.ltb_ge in Ea. apply Z.ltb_lt in Eb. lia.
    + now apply IH.
Qed.

Section FaqProofs.

Variable token_set_ratio : string -> string -> Z.

(** The loop keeps the first pair with the greatest score seen so far. *)
Lemma faq_loop user_lower entries st :
  forallb question_is_text entries = true ->
  for_each (faq_step token_set_ratio user_lower) entries st =
  Ok (first_max_from st (faq_scores token_set_ratio user_lower entries)).
Proof.
  revert st. induction entries as [|q entries IH]; intros st Hq; [reflexivity|].
  cbn [forallb] in Hq. apply andb_true_iff in Hq as [Hq Hqs].
  cbn [for_each]. unfold faq_scores. cbn [flat_map]. fold (faq_scores token_set_ratio user_lower entries).
  unfold faq_step at 1. unfold question_is_text in Hq.
  destruct q as [| | | | |fields]; cbn [bind app]; try (now apply IH).
  destruct (dict_get fields "question" (VStr "")) as [| | |question| |];
    try discriminate.
  cbn [app first_max_from snd].
  destruct (snd st <? token_set_ratio user_lower (lower question));
    cbn [bind]; now apply IH.
Qed.

Lemma faq_block_spec user_lower data_fields entries :
  dict_get data_fields "faq" (VList []) = VList entries ->
  entries <> [] ->
  forallb question_is_text entries = true ->
  faq_block token_set_ratio user_lower (VDict data_fields) =
  Ok (spec_faq_answer token_set_ratio user_lower entries).
Proof.
  intros Hfaq Hne Hq. unfold faq_block, data_get. cbn [bind]. rewrite Hfaq.
  destruct entries as [|q0 rest] eqn:Eentries; [now destruct Hne|].
  rewrite <- Eentries in *. clear Hne.
  assert (Ht : negb (truthy (VList entries)) = false) by now rewrite Eentries.
  rewrite Ht. cbn [iterate bind]. rewrite (faq_loop _ _ _ Hq). cbn [bind].
  unfold spec_faq_answer.
  destruct (faq_scores token_set_ratio user_lower entries) as [|p l].
  - reflexivity.
  - cbn [first_max first_max_from snd].
    destruct (0 <? snd p) eqn:E0.
    + destruct (first_max_from p l) as [answer score]. cbn [fst snd].
      now destruct (60 <? score).
    + apply Z.ltb_ge in E0.
      destruct (first_max_from_dominated l p (VNone, 0) E0) as [Hsnd Heq].
      cbn [snd] in Hsnd, Heq.
      destruct (60 <? snd (first_max_from (VNone, 0) l)) eqn:E.
      * apply Z.ltb_lt in E. rewrite <- Heq by lia.
        destruct (first_max_from p l) as [answer score] eqn:Ep.
        cbn [snd fst] in *.
        assert (E' : (60 <? score) = true) by (apply Z.ltb_lt; lia).
        now rewrite E'.
      * apply Z.ltb_ge in E.
        destruct (first_max_from p l) as [answer score] eqn:Ep.
        cbn [snd] in *.
        assert (E' : (60 <? score) = false) by (apply Z.ltb_ge; lia).
        now rewrite E'.
Qed.

End FaqProofs.

(** ** The dispatch of [get_bot_response] *)

Section ResponseProofs.

Variables ratio partial_ratio token_set_ratio : string -> string -> Z.
Variable random_choice : list string -> string.
Variable greetings : list string.
Variable fallback : string.
Variables menu_block branch_block hours_block about_block
  : string -> value -> result value.
Variables late_menu_block late_branch_block late_hours_block late_faq_block
  late_about_block : string -> value -> option (result value).

Local Abbreviation live :=
  (live_statements ratio partial_ratio token_set_ratio random_choice greetings
     fallback menu_block branch_block hours_block about_block).

Local Abbreviation respond :=
  (get_bot_response ratio partial_ratio token_set_ratio random_choice greetings
     fallback menu_block branch_block hours_block about_block late_menu_block
     late_branch_block late_hours_block late_faq_block late_about_block).

Local Abbreviation respond_truncated :=
  (get_bot_response_truncated ratio partial_ratio token_set_ratio random_choice
     greetings fallback menu_block branch_block hours_block about_block).

(** The statements up to line 598 always return. *)
Lemma live_statements_return user_msg data :
  exists r, live user_msg data = Some r.
Proof.
  unfold live_statements. cbv zeta.
  generalize (detect_intent ratio partial_ratio user_msg). intros intent.
  unfold when.
  repeat match goal with
         | |- context [if String.eqb intent ?l then _ else _] =>
             destruct (String.eqb intent l)
         end; cbn [orelse]; eauto.
Qed.

Lemma live_statements_faq user_msg data :
  detect_intent ratio partial_ratio user_msg = "faq_query" ->
  live user_msg data =
  Some (faq_block token_set_ratio (strip (lower user_msg)) data).
Proof.
  unfold live_statements. cbv zeta.
  generalize (detect_intent ratio partial_ratio user_msg). intros intent ->.
  reflexivity.
Qed.

Lemma live_statements_fallback user_msg data :
  ~ In (detect_intent ratio partial_ratio user_msg) handled_intents ->
  live user_msg data = Some (Ok (VStr fallback)).
Proof.
  unfold live_statements. cbv zeta.
  generalize (detect_intent ratio partial_ratio user_msg). intros intent Hnot.
  unfold when.
  repeat match goal with
         | |- context [if String.eqb intent ?l then _ else _] =>
             destruct (String.eqb_spec intent l) as [->|_];
             [exfalso; apply Hnot; unfold handled_intents, In; tauto|]
         end.
  reflexivity.
Qed.

Lemma respond_live user_msg data : respond user_msg data = respond_truncated user_msg data.
Proof.
  unfold get_bot_response, get_bot_response_truncated.
  destruct (live_statements_return user_msg data) as [r ->]. reflexivity.
Qed.

(** C7, as the code has it.  On a data snapshot whose FAQ list is not
    empty and whose dict entries have text questions (entries that are not
    dicts are skipped), a message classified "faq_query" is answered
    by scoring the lower-cased, trimmed message against every lower-cased
    question with [token_set_ratio]: the answer of the first entry with
    the greatest score when that score exceeds 60, the no-match reply
    otherwise. *)
Theorem faq_resolver_spec :
  forall user_msg data_fields entries,
    detect_intent ratio partial_ratio user_msg = "faq_query" ->
    dict_get data_fields "faq" (VList []) = VList entries ->
    entries <> [] ->
    forallb question_is_text entries = true ->
    respond user_msg (VDict data_fields) =
    Ok (spec_faq_answer token_set_ratio (strip (lower user_msg)) entries).
Proof.
  intros user_msg data_fields entries Hintent Hfaq Hne Hq.
  rewrite respond_live. unfold get_bot_response_truncated.
  rewrite (live_statements_faq _ _ Hintent). cbn [run_body].
  now apply faq_block_spec.
Qed.

(** C10.  Nothing written after the [return fallback] of line 598 is ever
    executed: whatever the later blocks are, [get_bot_response] is the
    function cut after that line, and a detected intent outside the
    handled ones ("unknown" among them) is answered with [fallback]. *)
Theorem statements_after_fallback_unreachable :
  forall user_msg data,
    respond user_msg data = respond_truncated user_msg data
    /\ (~ In (detect_intent ratio partial_ratio user_msg) handled_intents ->
        respond user_msg data = Ok (VStr fallback))
    /\ (detect_intent ratio partial_ratio user_msg = "unknown" ->
        respond user_msg data = Ok (VStr fallback)).
Proof.
  intros user_msg data.
  assert (H : ~ In (detect_intent ratio partial_ratio user_msg) handled_intents ->
              respond user_msg data = Ok (VStr fallback)).
  { intros Hnot. rewrite respond_live. unfold get_bot_response_truncated.
    now rewrite (live_statements_fallback _ _ Hnot). }
  split; [apply respond_live|]. split; [exact H|].
  intros Hu. apply H. rewrite Hu. unfold handled_intents, In.
  intros Hin. repeat (destruct Hin as [Hin|Hin]; [discriminate|]). exact Hin.
Qed.

End ResponseProofs.

(** * The theorems at concrete inputs *)

Lemma exact_ratio_le a b : exact_ratio a b <= 100.
Proof. unfold exact_ratio. destruct (String.eqb a b); lia. Qed.

Lemma no_ratio_le a b : no_ratio a b <= 100.
Proof. unfold no_ratio. lia. Qed.

(** [calculate_intent_score_spec] on "hello there" and two greetings. *)
Lemma calculate_intent_score_spec_witness :
  0 <= calculate_intent_score exact_ratio no_ratio "hello there"
         ["hello"; "good morning"] <= 100.
Proof.
  exact (proj1 (calculate_intent_score_spec exact_ratio no_ratio
                  exact_ratio_le no_ratio_le "hello there"
                  ["hello"; "good morning"])).
Defined.

(** [detect_intent_score_override] on "Hello there" and the greeting
    keywords: "hello" stands alone in the normalised text. *)
Lemma detect_intent_score_override_witness :
  standalone "hello" (normalize_text "Hello there") = true
  /\ get (intent_scores exact_ratio no_ratio (normalize_text "Hello there"))
       "greeting" 0 = 100.
Proof.
  split; [reflexivity|].
  refine (proj1 (detect_intent_score_override exact_ratio no_ratio
                   "Hello there" "greeting" _ (or_introl eq_refl))
            exact_ratio_le no_ratio_le _).
  exists "hello". split; [right; left; reflexivity|reflexivity].
Defined.

(** [greeting_rule_first] on "hello". *)
Lemma greeting_rule_first_witness :
  detect_intent exact_ratio no_ratio "hello" = "greeting".
Proof.
  apply (proj1 (greeting_rule_first exact_ratio no_ratio)).
  vm_compute. reflexivity.
Defined.


(** [hours_rule] on "what time do you open": the hours and the menu
    scores are both 100 and the text contains "open". *)
Lemma hours_rule_witness :
  detect_intent exact_ratio no_ratio "what time do you open" = "hours_query".
Proof.
  assert (H := hours_rule exact_ratio no_ratio "what time do you open").
  cbv zeta in H.
  destruct H as [H _].
  - vm_compute. discriminate.
  - vm_compute. discriminate.
  - left. vm_compute. discriminate.
  - vm_compute. discriminate.
  - vm_compute. reflexivity.
  - destruct H as [[_ H] _].
    + vm_compute. reflexivity.
    + apply H. vm_compute. reflexivity.
Defined.

(** C2, as stated, fails: two items share the flavour "Spicy"; the first
    contributor is "Zinger Burger", the search answers "Chicken Wings". *)
Lemma search_menu_first_owner_counterexample :
  extractOne exact_score "Spicy"
    (map fst (contributions no_str shared_flavour_menu))
    = Ok (Some (VStr "Spicy", 100))
  /\ first_owner (contributions no_str shared_flavour_menu) (VStr "Spicy")
     = Some (VStr "Zinger Burger")
  /\ search_menu no_str exact_score "Spicy" (VDict shared_flavour_menu)
     = Ok (VStr "Chicken Wings").
Proof. repeat split; vm_compute; reflexivity. Qed.

(** [search_menu_resolves_to_last_owner] on the same catalog. *)
Lemma search_menu_resolves_to_last_owner_witness :
  exists owner,
    last_owner (contributions no_str shared_flavour_menu) (VStr "Spicy")
      = Some owner
    /\ search_menu no_str exact_score "Spicy" (VDict shared_flavour_menu)
       = Ok owner.
Proof.
  apply (search_menu_resolves_to_last_owner no_str exact_score "Spicy"
           shared_flavour_menu (VStr "Spicy") 100).
  - vm_compute. reflexivity.
  - vm_compute. reflexivity.
  - lia.
Defined.

(** C4, as stated, fails: an item whose name is a list raises [TypeError]
    when it is used as a key, and a catalog that is a list has no
    [items]. *)
Lemma search_menu_raises_counterexample :
  search_menu no_str exact_score "burger" (VDict list_name_menu) = Raise TypeError
  /\ search_menu no_str exact_score "burger" list_menu = Raise AttributeError.
Proof. split; vm_compute; reflexivity. Qed.

(** [search_menu_total_on_hashable] on the catalog with a shared flavour. *)
Lemma search_menu_total_on_hashable_witness :
  exists r,
    search_menu no_str exact_score "Spicy" (VDict shared_flavour_menu) = Ok r.
Proof.
  refine (proj1 (search_menu_total_on_hashable no_str exact_score "Spicy"
                   shared_flavour_menu _)).
  vm_compute. reflexivity.
Defined.

(** [faq_resolver_spec] on "Do you deliver?". *)
Lemma faq_resolver_spec_witness :
  get_bot_response exact_ratio no_ratio exact_ratio first_choice [] "fallback"
    plain_block plain_block plain_block plain_block
    absent_block absent_block absent_block absent_block absent_block
    "Do you deliver?" (VDict sample_data)
  = Ok (spec_faq_answer exact_ratio (strip (lower "Do you deliver?")) sample_faqs).
Proof.
  apply faq_resolver_spec.
  - vm_compute. reflexivity.
  - reflexivity.
  - discriminate.
  - reflexivity.
Defined.

(** C7, as stated, fails: the first entry of the list scores 100 for the
    message, but the question of the second entry is a number, on which
    [question.lower()] raises; the resolver raises [AttributeError] instead
    of returning the answer of the best entry. *)
Lemma faq_resolver_raises_counterexample :
  detect_intent exact_ratio no_ratio "Do you deliver?" = "faq_query"
  /\ first_max
       (faq_scores exact_ratio (strip (lower "Do you deliver?")) broken_faqs)
     = Some (VStr "Yes.", 100)
  /\ get_bot_response exact_ratio no_ratio exact_ratio first_choice []
       "fallback" plain_block plain_block plain_block plain_block
       absent_block absent_block absent_block absent_block absent_block
       "Do you deliver?" (VDict [("faq", VList broken_faqs)])
     = Raise AttributeError.
Proof. repeat split; vm_compute; reflexivity. Qed.

Example faq_deliver :
  spec_faq_answer exact_ratio (strip (lower "Do you deliver?")) sample_faqs
  = VStr "Yes, we deliver.".
Proof. vm_compute. reflexivity. Qed.

(** [statements_after_fallback_unreachable] on a five-token message that
    no rule claims. *)
Lemma statements_after_fallback_unreachable_witness :
  get_bot_response exact_ratio no_ratio exact_ratio first_choice [] "fallback"
    plain_block plain_block plain_block plain_block
    absent_block absent_block absent_block absent_block absent_block
    "zzz yyy xxx www vvv" (VDict sample_data)
  = Ok (VStr "fallback").
Proof.
  apply (proj2 (proj2 (statements_after_fallback_unreachable
    exact_ratio no_ratio exact_ratio first_choice [] "fallback"
    plain_block plain_block plain_block plain_block
    absent_block absent_block absent_block absent_block absent_block
    "zzz yyy xxx www vvv" (VDict sample_data)))).
  vm_compute. reflexivity.
Defined.

(** * Further properties of the code *)

Example expand_show_menu :
  expand_synonyms "show  menu please" SYNONYMS =
  "show display see view list tell give provide menu card list items dishes food catalog selection please".
Proof. vm_compute. reflexivity. Qed.

Example actions_chicken :
  api_query_actions "Chicken burger" = ["View Menu"; "Our Branches"; "Opening Hours"].
Proof. vm_compute. reflexivity. Qed.

(** ** Characters and case *)

Lemma lower_char_idempotent c : lower_char (lower_char c) = lower_char c.
Proof. destruct c as [[] [] [] [] [] [] [] []]; reflexivity. Qed.

Lemma is_space_lower_char c : is_space (lower_char c) = is_space c.
Proof. destruct c as [[] [] [] [] [] [] [] []]; reflexivity. Qed.

Lemma lower_idempotent s : lower (lower s) = lower s.
Proof.
  induction s as [|c s IH]; cbn [lower]; [reflexivity|].
  now rewrite lower_char_idempotent, IH.
Qed.

Lemma lower_app s t : lower (s ++ t) = lower s ++ lower t.
Proof.
  induction s as [|c s IH]; cbn [lower append]; [reflexivity|]. now rewrite IH.
Qed.

Lemma all_chars_lower s : all_chars is_lowered (lower s) = true.
Proof.
  induction s as [|c s IH]; cbn [lower all_chars]; [reflexivity|].
  rewrite IH, andb_true_r. unfold is_lowered.
  rewrite lower_char_idempotent. apply Ascii.eqb_refl.
Qed.

Lemma lower_fixed s : all_chars is_lowered s = true -> lower s = s.
Proof.
  induction s as [|c s IH]; cbn [lower all_chars]; [reflexivity|].
  intros H. apply andb_true_iff in H as [Hc Hs].
  apply Ascii.eqb_eq in Hc. now rewrite Hc, IH.
Qed.

Lemma sub_nonword_fixed s : all_chars word_or_space s = true -> sub_nonword s = s.
Proof.
  induction s as [|c s IH]; cbn [sub_nonword all_chars]; [reflexivity|].
  intros H. apply andb_true_iff in H as [Hc Hs].
  unfold word_or_space in Hc. now rewrite Hc, IH.
Qed.

Lemma all_chars_lstrip P s : all_chars P s = true -> all_chars P (lstrip s) = true.
Proof.
  induction s as [|c s IH]; cbn [lstrip]; [reflexivity|].
  intros H. destruct (is_space c); [|exact H].
  cbn [all_chars] in H. apply andb_true_iff in H as [_ Hs]. now apply IH.
Qed.

Lemma all_chars_rstrip P s : all_chars P s = true -> all_chars P (rstrip s) = true.
Proof.
  induction s as [|c s IH]; [reflexivity|].
  intros H. cbn [rstrip]. destruct (all_space (String c s)); [reflexivity|].
  cbn [all_chars] in *. apply andb_true_iff in H as [Hc Hs].
  now rewrite Hc, IH.
Qed.

Lemma all_chars_sub_nonword_lowered s :
  all_chars is_lowered s = true -> all_chars is_lowered (sub_nonword s) = true.
Proof.
  induction s as [|c s IH]; cbn [sub_nonword all_chars]; [reflexivity|].
  intros H. apply andb_true_iff in H as [Hc Hs]. rewrite (IH Hs), andb_true_r.
  destruct (is_word c || is_space c); [exact Hc|reflexivity].
Qed.

Lemma all_chars_lowered_clean_text text :
  all_chars is_lowered (clean_text text) = true.
Proof.
  unfold clean_text. apply all_chars_join; [reflexivity|].
  apply all_chars_split_from; [reflexivity|].
  apply all_chars_sub_nonword_lowered. unfold strip.
  apply all_chars_rstrip, all_chars_lstrip, all_chars_lower.
Qed.

(** ** Tokens: [split] and [join] *)

Lemma is_empty_app s t : is_empty (s ++ t) = is_empty s && is_empty t.
Proof. now destruct s. Qed.

Lemma split_from_tokens cur s :
  all_chars (fun c => negb (is_space c)) cur = true ->
  Forall (fun t => is_token t = true) (split_from cur s).
Proof.
  revert cur. induction s as [|c s IH]; intros cur Hcur; cbn [split_from].
  - destruct (is_empty cur) eqn:E; constructor; [|constructor].
    unfold is_token. now rewrite E, Hcur.
  - destruct (is_space c) eqn:Ec.
    + destruct (is_empty cur) eqn:E; [now apply IH|].
      constructor; [|now apply IH]. unfold is_token. now rewrite E, Hcur.
    + apply IH. rewrite all_chars_app, Hcur. cbn [all_chars]. now rewrite Ec.
Qed.

Lemma split_tokens s : Forall (fun t => is_token t = true) (split s).
Proof. now apply split_from_tokens. Qed.

Lemma append_assoc (a b c : string) : (a ++ b) ++ c = a ++ b ++ c.
Proof. induction a as [|x a IH]; cbn [append]; [reflexivity|]. now rewrite IH. Qed.

Lemma append_empty_r (a : string) : a ++ "" = a.
Proof. induction a as [|x a IH]; cbn [append]; [reflexivity|]. now rewrite IH. Qed.

(** Reading a run of characters without white space extends the current
    token. *)
Lemma split_from_run cur t rest :
  all_chars (fun c => negb (is_space c)) t = true ->
  split_from cur (t ++ rest) = split_from (cur ++ t) rest.
Proof.
  revert cur. induction t as [|c t IH]; intros cur Ht; cbn [append].
  - now rewrite append_empty_r.
  - cbn [all_chars] in Ht. apply andb_true_iff in Ht as [Hc Ht].
    cbn [split_from]. apply negb_true_iff in Hc. rewrite Hc.
    rewrite (IH _ Ht). now rewrite append_assoc.
Qed.

Lemma join_cons sep t u ts :
  join sep (t :: u :: ts) = t ++ sep ++ join sep (u :: ts).
Proof. reflexivity. Qed.

(** Splitting the blank-joined tokens gives the tokens back. *)
Lemma split_join tokens :
  Forall (fun t => is_token t = true) tokens ->
  split (join " " tokens) = tokens.
Proof.
  unfold split.
  induction 1 as [|t ts Ht Hts IH]; [reflexivity|].
  unfold is_token in Ht. apply andb_true_iff in Ht as [Hne Hns].
  destruct ts as [|u ts].
  - cbn [join String.concat].
    rewrite <- (append_empty_r t) at 1. rewrite (split_from_run _ _ _ Hns).
    cbn [append split_from]. now destruct (is_empty t).
  - rewrite join_cons, (split_from_run _ _ _ Hns).
    cbn [append split_from]. change (is_space " ") with true. cbn iota.
    destruct (is_empty t); [discriminate|]. now rewrite IH.
Qed.

Lemma all_space_app s t : all_space (s ++ t) = all_space s && all_space t.
Proof.
  induction s as [|c s IH]; cbn [append all_space]; [reflexivity|].
  now rewrite IH, andb_assoc.
Qed.

Lemma rstrip_app s t : all_space t = false -> rstrip (s ++ t) = s ++ rstrip t.
Proof.
  intros Ht. induction s as [|c s IH]; [reflexivity|].
  cbn [append rstrip all_space]. rewrite all_space_app, Ht, IH.
  now rewrite andb_false_r, andb_false_r.
Qed.

Lemma token_not_all_space t : is_token t = true -> all_space t = false.
Proof.
  unfold is_token. destruct t as [|c t]; [discriminate|].
  cbn [is_empty negb andb all_chars all_space].
  intros H. apply andb_true_iff in H as [Hc _].
  apply negb_true_iff in Hc. now rewrite Hc.
Qed.

Lemma rstrip_no_space t :
  all_chars (fun c => negb (is_space c)) t = true -> rstrip t = t.
Proof.
  induction t as [|c t IH]; [reflexivity|].
  cbn [all_chars rstrip all_space]. intros H.
  apply andb_true_iff in H as [Hc Ht]. apply negb_true_iff in Hc.
  now rewrite Hc, IH.
Qed.

Lemma join_tokens_not_all_space t ts :
  is_token t = true -> all_space (join " " (t :: ts)) = false.
Proof.
  intros Ht. destruct ts as [|u ts].
  - now apply token_not_all_space.
  - rewrite join_cons, all_space_app, (token_not_all_space _ Ht). reflexivity.
Qed.

Lemma lstrip_join tokens :
  Forall (fun t => is_token t = true) tokens ->
  lstrip (join " " tokens) = join " " tokens.
Proof.
  intros Htok. destruct Htok as [|t ts Ht _]; [reflexivity|].
  assert (Hhead : exists c r, join " " (t :: ts) = String c r /\ is_space c = false).
  { unfold is_token in Ht. destruct t as [|c t]; [discriminate|].
    cbn [is_empty negb andb all_chars] in Ht.
    apply andb_true_iff in Ht as [Hc _]. apply negb_true_iff in Hc.
    destruct ts as [|u ts]; [now exists c, t|].
    rewrite join_cons. cbn [append]. eauto. }
  destruct Hhead as (c & r & -> & Hc). cbn [lstrip]. now rewrite Hc.
Qed.

Lemma rstrip_join tokens :
  Forall (fun t => is_token t = true) tokens ->
  rstrip (join " " tokens) = join " " tokens.
Proof.
  induction 1 as [|t ts Ht Hts IH]; [reflexivity|].
  destruct ts as [|u ts].
  - cbn [join String.concat]. apply rstrip_no_space.
    unfold is_token in Ht. now apply andb_true_iff in Ht as [_ Ht].
  - inversion Hts as [|? ? Hu _]; subst.
    rewrite join_cons.
    rewrite rstrip_app.
    2:{ rewrite all_space_app, (join_tokens_not_all_space u ts Hu).
        apply andb_false_r. }
    f_equal.
    rewrite rstrip_app by apply (join_tokens_not_all_space u ts Hu).
    f_equal. exact IH.
Qed.

(** The blank-joined tokens have no white space at either end. *)
Lemma strip_join tokens :
  Forall (fun t => is_token t = true) tokens ->
  strip (join " " tokens) = join " " tokens.
Proof.
  intros Htok. unfold strip. rewrite (lstrip_join _ Htok).
  now apply rstrip_join.
Qed.

(** ** The shape of the normalised text *)

Lemma normalize_text_clean text : normalize_text text = clean_text text.
Proof.
  unfold normalize_text.
  apply (expand_contractions_absent apostrophe).
  - exact contractions_have_apostrophe.
  - apply (all_chars_occurs word_or_space); [reflexivity|].
    apply all_chars_clean_text.
Qed.

Lemma all_chars_and P Q s :
  all_chars P s = true -> all_chars Q s = true ->
  all_chars (fun c => P c && Q c) s = true.
Proof.
  induction s as [|c s IH]; cbn [all_chars]; [reflexivity|].
  intros HP HQ. apply andb_true_iff in HP as [Hp HP].
  apply andb_true_iff in HQ as [Hq HQ]. now rewrite Hp, Hq, IH.
Qed.

Lemma all_chars_impl (P Q : ascii -> bool) s :
  (forall c, P c = true -> Q c = true) ->
  all_chars P s = true -> all_chars Q s = true.
Proof.
  intros HPQ. induction s as [|c s IH]; cbn [all_chars]; [reflexivity|].
  intros H. apply andb_true_iff in H as [Hc Hs]. now rewrite (HPQ _ Hc), IH.
Qed.

Lemma Forall_and_tokens (P : ascii -> bool) tokens :
  Forall (fun t => all_chars P t = true) tokens ->
  Forall (fun t => is_token t = true) tokens ->
  Forall (fun t => all_chars (fun c => P c && negb (is_space c)) t = true) tokens.
Proof.
  induction 1 as [|t ts Ht _ IH]; intros Htok; constructor;
    inversion Htok as [|? ? Hk Hks]; subst.
  - apply all_chars_and; [exact Ht|].
    unfold is_token in Hk. now apply andb_true_iff in Hk as [_ Hk].
  - now apply IH.
Qed.

(** The cleaned text is its own tokens joined by single blanks. *)
Lemma clean_text_join_split text :
  join " " (split (clean_text text)) = clean_text text.
Proof.
  unfold clean_text at 1. rewrite split_join by apply split_tokens. reflexivity.
Qed.

Lemma clean_text_idempotent text : clean_text (clean_text text) = clean_text text.
Proof.
  unfold clean_text at 1.
  rewrite (lower_fixed _ (all_chars_lowered_clean_text text)).
  assert (Hs : strip (clean_text text) = clean_text text)
    by (unfold clean_text; apply strip_join, split_tokens).
  rewrite Hs, (sub_nonword_fixed _ (all_chars_clean_text text)).
  apply clean_text_join_split.
Qed.

(** ASCII text stays ASCII through the steps of [normalize_text]. *)
Lemma is_ascii_lower_char c :
  is_ascii_char c = true -> is_ascii_char (lower_char c) = true.
Proof. destruct c as [[] [] [] [] [] [] [] []]; intros H; exact H || reflexivity. Qed.

Lemma all_chars_lower_closed (P : ascii -> bool) s :
  (forall c, P c = true -> P (lower_char c) = true) ->
  all_chars P s = true -> all_chars P (lower s) = true.
Proof.
  intros HP. induction s as [|c s IH]; cbn [lower all_chars]; [reflexivity|].
  intros H. apply andb_true_iff in H as [Hc Hs]. now rewrite (HP _ Hc), IH.
Qed.

Lemma all_chars_sub_nonword_closed (P : ascii -> bool) s :
  P " "%char = true ->
  all_chars P s = true -> all_chars P (sub_nonword s) = true.
Proof.
  intros Hb. induction s as [|c s IH]; cbn [sub_nonword all_chars]; [reflexivity|].
  intros H. apply andb_true_iff in H as [Hc Hs]. rewrite (IH Hs), andb_true_r.
  destruct (is_word c || is_space c); [exact Hc|exact Hb].
Qed.

Lemma is_ascii_clean_text text :
  is_ascii text = true -> is_ascii (clean_text text) = true.
Proof.
  unfold is_ascii, clean_text. intros H.
  apply all_chars_join; [reflexivity|].
  apply all_chars_split_from; [reflexivity|].
  apply all_chars_sub_nonword_closed; [reflexivity|]. unfold strip.
  apply all_chars_rstrip, all_chars_lstrip.
  now apply all_chars_lower_closed; [exact is_ascii_lower_char|].
Qed.

(** An ASCII character that is a word character or a blank and that
    [str.lower] leaves alone is a lower-case letter, a digit, the
    underscore or the blank. *)
Lemma plain_char_intro c :
  (is_ascii_char c && ((is_word c || Ascii.eqb c " ") && is_lowered c)) = true ->
  plain_char c = true.
Proof.
  destruct c as [[] [] [] [] [] [] [] []]; intros H;
    reflexivity || (vm_compute in H; discriminate H).
Qed.

Lemma word_or_blank_clean_text text :
  all_chars (fun c => is_word c || Ascii.eqb c " ") (clean_text text) = true.
Proof.
  unfold clean_text. apply all_chars_join; [reflexivity|].
  eapply Forall_impl;
    [|apply (Forall_and_tokens word_or_space);
      [apply all_chars_split_from; [reflexivity|apply all_chars_sub_nonword]
      |apply split_tokens]].
  intros t Ht. cbv beta in Ht. revert Ht. apply all_chars_impl.
  intros c Hc. apply andb_true_iff in Hc as [Hw Hs].
  unfold word_or_space in Hw. apply negb_true_iff in Hs.
  rewrite Hs, orb_false_r in Hw. now rewrite Hw.
Qed.

(** X1.  On ASCII text [normalize_text] is idempotent, contractions
    included. *)
Theorem normalize_text_idempotent :
  forall text,
    is_ascii text = true ->
    normalize_text (normalize_text text) = normalize_text text.
Proof.
  intros text _. rewrite !normalize_text_clean. apply clean_text_idempotent.
Qed.

(** X2.  The normalised form of an ASCII text holds only lower-case
    letters, digits, underscores and blanks; it has no white space at
    either end and its tokens are separated by exactly one blank. *)
Theorem normalize_text_shape :
  forall text,
    is_ascii text = true ->
    let normalized := normalize_text text in
    all_chars plain_char normalized = true
    /\ lower normalized = normalized
    /\ strip normalized = normalized
    /\ join " " (split normalized) = normalized.
Proof.
  intros text Hascii normalized. unfold normalized.
  rewrite normalize_text_clean. repeat split.
  - apply (all_chars_impl _ _ _ plain_char_intro).
    apply all_chars_and; [exact (is_ascii_clean_text text Hascii)|].
    apply all_chars_and;
      [apply word_or_blank_clean_text|apply all_chars_lowered_clean_text].
  - apply lower_fixed, all_chars_lowered_clean_text.
  - unfold clean_text. apply strip_join, split_tokens.
  - apply clean_text_join_split.
Qed.

Lemma normalize_text_lower a b :
  lower a = lower b -> normalize_text a = normalize_text b.
Proof. intros H. unfold normalize_text, clean_text. now rewrite H. Qed.

Lemma decide_same_text ratio partial_ratio a b :
  normalize_text a = normalize_text b ->
  detect_intent ratio partial_ratio a = detect_intent ratio partial_ratio b.
Proof. intros H. unfold detect_intent. now rewrite H. Qed.

(** X3.  On ASCII text [detect_intent] does not see the case of its
    input, nor what normalisation removes: two messages with the same
    lower-case form get the same intent, and a message, its lower-case
    form and its normalised text get the same intent. *)
Theorem detect_intent_case_insensitive :
  forall ratio partial_ratio,
    (forall a b,
        is_ascii a = true -> is_ascii b = true -> lower a = lower b ->
        detect_intent ratio partial_ratio a = detect_intent ratio partial_ratio b)
    /\ (forall text,
          is_ascii text = true ->
          detect_intent ratio partial_ratio (lower text)
          = detect_intent ratio partial_ratio text)
    /\ (forall text,
          is_ascii text = true ->
          detect_intent ratio partial_ratio (normalize_text text)
          = detect_intent ratio partial_ratio text).
Proof.
  intros ratio partial_ratio. repeat split.
  - intros a b _ _ H. now apply decide_same_text, normalize_text_lower.
  - intros text _.
    apply decide_same_text, normalize_text_lower, lower_idempotent.
  - intros text _. apply decide_same_text.
    rewrite !normalize_text_clean. apply clean_text_idempotent.
Qed.

(** ** Substrings *)

Lemma prefix_app a s : String.prefix a (a ++ s) = true.
Proof.
  induction a as [|c a IH]; cbn; [now destruct s|].
  destruct (ascii_dec c c) as [_|n]; [exact IH|now destruct n].
Qed.

Lemma prefix_split a s : String.prefix a s = true -> exists q, s = a ++ q.
Proof.
  revert s. induction a as [|c a IH]; intros s H; [now exists s|].
  destruct s as [|d s]; [discriminate|]. cbn in H.
  destruct (ascii_dec c d) as [->|]; [|discriminate].
  destruct (IH _ H) as [q ->]. now exists q.
Qed.

Lemma contains_here sub s : String.prefix sub s = true -> contains sub s = true.
Proof. intros H. destruct s; cbn [contains]; now rewrite H. Qed.

Lemma contains_app sub p q : contains sub (p ++ sub ++ q) = true.
Proof.
  induction p as [|c p IH]; cbn [append].
  - apply contains_here, prefix_app.
  - cbn [contains]. rewrite IH. apply orb_true_r.
Qed.

Lemma contains_split sub s :
  contains sub s = true -> exists p q, s = p ++ sub ++ q.
Proof.
  induction s as [|c s IH]; cbn [contains]; intros H.
  - rewrite orb_false_r in H. apply prefix_split in H as [q ->].
    now exists "", q.
  - apply orb_true_iff in H as [H|H].
    + apply prefix_split in H as [q ->]. now exists "", q.
    + destruct (IH H) as (p & q & ->). now exists (String c p), q.
Qed.

(** [in] on strings is transitive. *)
Lemma contains_trans a b c :
  contains a b = true -> contains b c = true -> contains a c = true.
Proof.
  intros Hab Hbc.
  apply contains_split in Hab as (p & q & ->).
  apply contains_split in Hbc as (p' & q' & ->).
  replace (p' ++ (p ++ a ++ q) ++ q') with ((p' ++ p) ++ a ++ (q ++ q')).
  - apply contains_app.
  - now rewrite !append_assoc.
Qed.

Lemma any_in_within words w msg :
  any_in words w = true -> contains w msg = true -> any_in words msg = true.
Proof.
  unfold any_in. rewrite !existsb_exists.
  intros (t & Hin & Ht) Hw. exists t. split; [exact Hin|].
  now apply (contains_trans t w msg).
Qed.

(** ** [expand_synonyms] *)

Lemma synonyms_of_mem word synonym_dict synonyms :
  synonyms_of word synonym_dict = Some synonyms -> In word synonyms.
Proof.
  induction synonym_dict as [|[key syn] r IH]; cbn [synonyms_of]; [discriminate|].
  destruct (mem word syn) eqn:E; [|exact IH].
  intros [= <-]. now apply mem_In.
Qed.

Lemma synonyms_of_app word d1 d2 :
  synonyms_of word (d1 ++ d2)%list =
  match synonyms_of word d1 with
  | Some synonyms => Some synonyms
  | None => synonyms_of word d2
  end.
Proof.
  induction d1 as [|[key syn] d1 IH]; cbn [app synonyms_of]; [reflexivity|].
  destruct (mem word syn); [reflexivity|exact IH].
Qed.

(** X4.  [expand_synonyms] never loses a word: every token of the text is
    among the expanded words.  When no token belongs to a synonym group the
    result is the text with its white space collapsed; an empty dictionary
    expands nothing; and groups listed after the first one that holds a
    word are not used for it. *)
Theorem expand_synonyms_keeps_words :
  forall text synonym_dict,
    (forall word, In word (split text) ->
                  In word (expanded_words text synonym_dict))
    /\ ((forall word, In word (split text) ->
                      synonyms_of word synonym_dict = None) ->
        expand_synonyms text synonym_dict = join " " (split text))
    /\ expand_synonyms text [] = join " " (split text)
    /\ (forall later,
          (forall word, In word (split text) ->
                        synonyms_of word synonym_dict <> None) ->
          expand_synonyms text (synonym_dict ++ later)%list
          = expand_synonyms text synonym_dict).
Proof.
  intros text synonym_dict.
  assert (Hnone : forall d,
    (forall word, In word (split text) -> synonyms_of word d = None) ->
    expand_synonyms text d = join " " (split text)).
  { intros d H. unfold expand_synonyms, expanded_words. f_equal.
    induction (split text) as [|w ws IH]; [reflexivity|].
    cbn [flat_map]. rewrite (H w (or_introl eq_refl)).
    cbn [app]. f_equal. apply IH. intros word Hw. apply H. now right. }
  repeat split.
  - intros word Hin. unfold expanded_words. apply in_flat_map.
    exists word. split; [exact Hin|].
    destruct (synonyms_of word synonym_dict) as [syn|] eqn:E.
    + now apply (synonyms_of_mem _ _ _ E).
    + now left.
  - apply Hnone.
  - apply Hnone. reflexivity.
  - intros later H. unfold expand_synonyms, expanded_words. f_equal.
    revert H. generalize (split text). intros ws H.
    induction ws as [|w ws IH]; [reflexivity|].
    cbn [flat_map]. rewrite synonyms_of_app.
    destruct (synonyms_of w synonym_dict) eqn:E;
      [|now destruct (H w (or_introl eq_refl))].
    f_equal. apply IH. intros word Hw. apply H. now right.
Qed.

(** ** [fuzzy_word_in_text] *)

Lemma split_from_lower cur s :
  split_from (lower cur) (lower s) = map lower (split_from cur s).
Proof.
  revert cur. induction s as [|c s IH]; intros cur; cbn [lower split_from].
  - destruct cur; reflexivity.
  - rewrite is_space_lower_char. destruct (is_space c).
    + destruct cur as [|d cur]; cbn [is_empty lower]; [apply (IH "")|].
      cbn [map]. f_equal. apply (IH "").
    + rewrite <- IH, lower_app. reflexivity.
Qed.

Lemma split_lower s : split (lower s) = map lower (split s).
Proof. apply (split_from_lower ""). Qed.

(** X5.  [fuzzy_word_in_text] ignores the case of an ASCII word and of
    an ASCII text, finds nothing in a text without tokens, and a match at
    one threshold is a match at every lower threshold. *)
Theorem fuzzy_word_in_text_properties :
  forall ratio word text,
    (forall threshold,
        is_ascii word = true -> is_ascii text = true ->
        fuzzy_word_in_text ratio (lower word) (lower text) threshold
        = fuzzy_word_in_text ratio word text threshold)
    /\ (forall threshold,
          split text = [] -> fuzzy_word_in_text ratio word text threshold = false)
    /\ (forall low high,
          low <= high ->
          fuzzy_word_in_text ratio word text high = true ->
          fuzzy_word_in_text ratio word text low = true).
Proof.
  intros ratio word text. unfold fuzzy_word_in_text. repeat split.
  - intros threshold _ _. rewrite split_lower, lower_idempotent.
    induction (split text) as [|w ws IH]; [reflexivity|].
    cbn [map existsb]. now rewrite lower_idempotent, IH.
  - intros threshold ->. reflexivity.
  - intros low high Hle. rewrite !existsb_exists.
    intros (w & Hin & Hw). exists w. split; [exact Hin|].
    apply Z.leb_le in Hw. apply Z.leb_le. lia.
Qed.

(** ** The quick-action buttons *)

(** X17.  [api_query] before the data is loaded answers that the service
    is starting and offers no button; an exception of [get_bot_response]
    leaves the handler.  Once the data is loaded and [get_bot_response]
    returns, the buttons are chosen by substring tests on the lower-cased
    message, the greeting triggers first: an ASCII message that contains,
    in any case, a word in which a greeting trigger occurs (such as
    "chicken", which holds "hi") gets the greeting buttons, whatever else
    it says. *)
Theorem api_query_buttons :
  forall ratio partial_ratio token_set_ratio random_choice greetings fallback
         menu_block branch_block hours_block about_block late_menu_block
         late_branch_block late_hours_block late_faq_block late_about_block
         message,
    let respond :=
      get_bot_response ratio partial_ratio token_set_ratio random_choice
        greetings fallback menu_block branch_block hours_block about_block
        late_menu_block late_branch_block late_hours_block late_faq_block
        late_about_block in
    let query :=
      api_query ratio partial_ratio token_set_ratio random_choice greetings
        fallback menu_block branch_block hours_block about_block
        late_menu_block late_branch_block late_hours_block late_faq_block
        late_about_block in
    query None message = Ok (VStr starting_up, [])
    /\ (forall loaded e,
          respond message loaded = Raise e ->
          query (Some loaded) message = Raise e)
    /\ (forall loaded answer word,
          respond message loaded = Ok answer ->
          is_ascii message = true ->
          any_in greeting_triggers word = true ->
          contains word (lower message) = true ->
          query (Some loaded) message
          = Ok (answer, ["View Menu"; "Our Branches"; "Opening Hours"])).
Proof.
  intros. unfold query, respond, api_query. repeat split.
  - intros loaded e ->. reflexivity.
  - intros loaded answer word -> _ Hw Hm. cbn [bind].
    unfold api_query_actions. cbv zeta.
    now rewrite (any_in_within _ _ _ Hw Hm).
Qed.

(** ** More on the decision policy *)

Lemma orelse_none {A : Type} (a b : option A) :
  a <|> b = None -> a = None /\ b = None.
Proof. destruct a; cbn; [discriminate|auto]. Qed.

Lemma py_max_bound xs m :
  py_max xs = Some m -> forall x, In x xs -> x <= m.
Proof.
  destruct xs as [|x0 r]; cbn [py_max]; [discriminate|].
  intros [= <-] x [->|Hin]; [apply fold_max_ge_init|now apply fold_max_ge_in].
Qed.

Lemma py_max_le xs m b :
  py_max xs = Some m -> (forall x, In x xs -> x <= b) -> m <= b.
Proof.
  destruct xs as [|x0 r]; cbn [py_max]; [discriminate|].
  intros [= <-] H. apply fold_max_le; [apply H; now left|].
  intros y Hy. apply H. now right.
Qed.

Lemma get_in_nodup (s : list (string * Z)) k v d :
  NoDup (map fst s) -> In (k, v) s -> get s k d = v.
Proof.
  unfold get. induction s as [|[k0 v0] s IH]; intros Hnd Hin; [destruct Hin|].
  cbn [map fst] in Hnd. inversion Hnd as [|? ? Hnotin Hnd']; subst.
  cbn [find fst]. destruct Hin as [[= -> ->]|Hin].
  - now rewrite String.eqb_refl.
  - destruct (String.eqb_spec k0 k) as [->|_].
    + destruct Hnotin. apply in_map_iff. now exists (k, v).
    + now apply IH.
Qed.

Lemma get_bound (s : list (string * Z)) k b :
  0 <= b -> (forall k' v, In (k', v) s -> v <= b) -> get s k 0 <= b.
Proof.
  intros Hb H. unfold get.
  destruct (find (fun p => String.eqb (fst p) k) s) as [[k' v]|] eqn:E; [|exact Hb].
  apply find_some in E as [Hin _]. now apply (H k' v).
Qed.

(** The first key with the greatest value carries that value. *)
Lemma argmax_from_value best best_v l :
  (argmax_from best best_v l = best
   /\ fold_left Z.max (map snd l) best_v = best_v)
  \/ In (argmax_from best best_v l, fold_left Z.max (map snd l) best_v) l.
Proof.
  revert best best_v. induction l as [|[k v] l IH]; intros best best_v;
    cbn [argmax_from map snd fold_left]; [now left|].
  destruct (best_v <? v) eqn:E.
  - apply Z.ltb_lt in E. replace (Z.max best_v v) with v by lia.
    destruct (IH k v) as [[-> ->]|H]; right; [now left|now right].
  - apply Z.ltb_ge in E. replace (Z.max best_v v) with best_v by lia.
    destruct (IH best best_v) as [H|H]; [now left|right; now right].
Qed.

Lemma argmax_key_value s k m :
  argmax_key s = Some k -> py_max (map snd s) = Some m -> In (k, m) s.
Proof.
  destruct s as [|[k0 v0] l]; cbn [argmax_key py_max map snd]; [discriminate|].
  intros [= <-] [= <-].
  destruct (argmax_from_value k0 v0 l) as [[-> ->]|H]; [now left|now right].
Qed.

(** Whatever a rule that reads the scores answers, apart from
    "menu_query", has a score above 50. *)
Lemma scored_rules_backed (s : list (string * Z)) (n i : string) :
  NoDup (map fst s) ->
  scored_rules s n = Some i -> i <> "menu_query" -> 50 < get s i 0.
Proof.
  intros Hnd H Hi. unfold scored_rules in H.
  repeat (apply orelse_some in H as [H|[_ H]]; [revert H|]).
  8: { unfold rule_best in H.
       destruct (py_max (map snd s)) as [m|] eqn:Em; [|discriminate].
       destruct (50 <? m) eqn:E; [|discriminate]. apply Z.ltb_lt in E.
       pose proof (argmax_key_value _ _ _ H Em) as Hin.
       now rewrite (get_in_nodup _ _ _ 0 Hnd Hin). }
  all: unfold rule_greeting, rule_farewell, rule_branch, rule_faq, rule_hours,
         rule_about, rule_menu.
  - destruct (80 <? get s "greeting" 0) eqn:E; [|discriminate].
    intros [= <-]. apply Z.ltb_lt in E. lia.
  - destruct (80 <? get s "farewell" 0) eqn:E; [|discriminate].
    intros [= <-]. apply Z.ltb_lt in E. lia.
  - destruct (70 <? get s "branch_query" 0) eqn:E; [|discriminate].
    destruct (get s "branch_query" 0 <? get s "menu_query" 0); [discriminate|].
    intros [= <-]. apply Z.ltb_lt in E. lia.
  - destruct (70 <? get s "faq_query" 0) eqn:E; [|discriminate].
    intros [= <-]. apply Z.ltb_lt in E. lia.
  - destruct (70 <? get s "hours_query" 0) eqn:E; [|discriminate].
    apply Z.ltb_lt in E.
    destruct (70 <? get s "menu_query" 0);
      [destruct (existsb (fun w => contains w n) hours_words); [|discriminate]|];
      intros [= <-]; lia.
  - destruct (70 <? get s "about" 0) eqn:E; cbn [andb]; [|discriminate].
    destruct (get s "menu_query" 0 <? 60); [|discriminate].
    intros [= <-]. apply Z.ltb_lt in E. lia.
  - destruct (50 <? get s "menu_query" 0); [|discriminate].
    intros [= <-]. now destruct Hi.
Qed.

(** No rule that reads the scores returns when every score is at most 50,
    and only then. *)
Lemma scored_rules_none_values (s : list (string * Z)) (n : string) :
  s <> [] -> scored_rules s n = None -> forall k v, In (k, v) s -> v <= 50.
Proof.
  intros Hne H k v Hin. unfold scored_rules in H.
  repeat (apply orelse_none in H as [_ H]).
  unfold rule_best in H.
  assert (Hv : In v (map snd s)).
  { apply in_map_iff. exists (k, v). split; [reflexivity|exact Hin]. }
  destruct (py_max (map snd s)) as [m|] eqn:Em.
  - destruct (50 <? m) eqn:E.
    + destruct s as [|[k0 v0] r]; [now destruct Hne|discriminate].
    + apply Z.ltb_ge in E. pose proof (py_max_bound _ _ Em v Hv). lia.
  - destruct s as [|[k0 v0] r]; [now destruct Hne|discriminate].
Qed.

Lemma scored_rules_none_intro (s : list (string * Z)) (n : string) :
  (forall i, In i intent_labels -> get s i 0 <= 50) ->
  (forall k v, In (k, v) s -> v <= 50) ->
  scored_rules s n = None.
Proof.
  intros Hget Hall. unfold scored_rules.
  assert (Hg : get s "greeting" 0 <= 50) by (apply Hget; unfold intent_labels, In; tauto).
  assert (Hf : get s "farewell" 0 <= 50) by (apply Hget; unfold intent_labels, In; tauto).
  assert (Hb : get s "branch_query" 0 <= 50) by (apply Hget; unfold intent_labels, In; tauto).
  assert (Hq : get s "faq_query" 0 <= 50) by (apply Hget; unfold intent_labels, In; tauto).
  assert (Hh : get s "hours_query" 0 <= 50) by (apply Hget; unfold intent_labels, In; tauto).
  assert (Ha : get s "about" 0 <= 50) by (apply Hget; unfold intent_labels, In; tauto).
  assert (Hm : get s "menu_query" 0 <= 50) by (apply Hget; unfold intent_labels, In; tauto).
  rewrite (rule_greeting_none s) by lia.
  rewrite (rule_farewell_none s) by lia.
  rewrite (rule_branch_none s) by (left; lia).
  rewrite (rule_faq_none s) by lia.
  cbn [orelse]. unfold rule_hours, rule_about, rule_menu, rule_best.
  assert (E1 : (70 <? get s "hours_query" 0) = false) by (apply Z.ltb_ge; lia).
  assert (E2 : (70 <? get s "about" 0) = false) by (apply Z.ltb_ge; lia).
  assert (E3 : (50 <? get s "menu_query" 0) = false) by (apply Z.ltb_ge; lia).
  rewrite E1, E2, E3. cbn [andb orelse].
  destruct (py_max (map snd s)) as [m|] eqn:Em; [|reflexivity].
  assert (Hle : m <= 50).
  { apply (py_max_le _ _ _ Em). intros x Hx.
    apply in_map_iff in Hx as ([k v] & <- & Hin). now apply (Hall k v). }
  apply Z.ltb_ge in Hle. now rewrite Hle.
Qed.

(** What [decide] answers is "unknown" exactly when no rule that reads the
    scores returns and the text has more than four tokens. *)
Lemma decide_unknown_iff (s : list (string * Z)) (n : string) :
  (forall i, scored_rules s n = Some i -> i <> "unknown") ->
  (decide s n = "unknown"
   <-> scored_rules s n = None /\ (4 < List.length (split n))%nat).
Proof.
  intros Hlabel. unfold decide.
  destruct (scored_rules s n) as [i|] eqn:E; cbn [orelse].
  - split; [intros ->; now destruct (Hlabel _ eq_refl)|intros [H _]; discriminate].
  - unfold rule_short.
    destruct (List.length (split n) <=? 4)%nat eqn:El.
    + apply Nat.leb_le in El. split; [discriminate|intros [_ H]; lia].
    + apply Nat.leb_gt in El. split; auto.
Qed.

(** [decide] answers with a label of the score table, "menu_query" or
    "unknown". *)
Lemma decide_range (s : list (string * Z)) (n : string) :
  In (decide s n) (intent_labels ++ map fst s ++ ["unknown"])%list.
Proof.
  unfold decide.
  destruct (scored_rules s n) as [i|] eqn:E; cbn [orelse].
  - apply (rules_label_generic no_ratio no_ratio) in E as [H|H].
    + apply in_or_app. left. exact H.
    + apply in_or_app. right. apply in_or_app. left. exact H.
  - unfold rule_short. apply in_or_app.
    destruct (List.length (split n) <=? 4)%nat.
    + left. unfold intent_labels, In. tauto.
    + right. apply in_or_app. right. left. reflexivity.
Qed.

Lemma decide_backed (s : list (string * Z)) (n i : string) :
  NoDup (map fst s) ->
  decide s n = i -> i <> "menu_query" -> i <> "unknown" -> 50 < get s i 0.
Proof.
  intros Hnd H Hmenu Hunknown. unfold decide in H.
  destruct (scored_rules s n) as [j|] eqn:E; cbn [orelse] in H.
  - subst j. exact (scored_rules_backed _ _ _ Hnd E Hmenu).
  - unfold rule_short in H.
    destruct (List.length (split n) <=? 4)%nat; congruence.
Qed.

Section MoreIntentProofs.

Variables ratio partial_ratio : string -> string -> Z.

Local Abbreviation scores := (intent_scores ratio partial_ratio).
Local Abbreviation detect := (detect_intent ratio partial_ratio).

Lemma intent_scores_nodup n : NoDup (map fst (scores n)).
Proof.
  rewrite map_fst_intent_scores. unfold intent_labels.
  repeat (constructor; [cbn [In]; intros H;
    repeat (destruct H as [H|H]; [discriminate|]); exact H|]).
  constructor.
Qed.

Lemma intent_scores_entry n k v :
  In (k, v) (scores n) -> In k intent_labels /\ get (scores n) k 0 = v.
Proof.
  intros Hin. split.
  - rewrite <- (map_fst_intent_scores ratio partial_ratio n).
    apply in_map_iff. exists (k, v). split; [reflexivity|exact Hin].
  - exact (get_in_nodup _ _ _ 0 (intent_scores_nodup n) Hin).
Qed.

Lemma intent_scores_nonempty n : scores n <> [].
Proof.
  intros H. apply (f_equal (map fst)) in H.
  rewrite map_fst_intent_scores in H. discriminate.
Qed.

(** X6.  [detect_intent] answers with one of the seven intents of the
    keyword table or with "unknown", and with nothing else. *)
Theorem detect_intent_range :
  forall user_msg, In (detect user_msg) (intent_labels ++ ["unknown"])%list.
Proof.
  intros user_msg. unfold detect_intent.
  generalize (normalize_text user_msg). intros n.
  pose proof (decide_range (scores n) n) as H.
  rewrite map_fst_intent_scores in H.
  apply in_app_or in H as [H|H]; [apply in_or_app; now left|].
  apply in_app_or in H as [H|H]; apply in_or_app; [now left|now right].
Qed.

(** X7.  [detect_intent] answers "unknown" exactly when no intent scores
    above 50 and the normalised text has more than four tokens. *)
Theorem detect_intent_unknown_iff :
  forall user_msg,
    let normalized_msg := normalize_text user_msg in
    detect user_msg = "unknown"
    <-> ((forall intent, In intent intent_labels ->
                         get (scores normalized_msg) intent 0 <= 50)
         /\ (4 < List.length (split normalized_msg))%nat).
Proof.
  intros user_msg. unfold detect_intent. cbv zeta.
  generalize (normalize_text user_msg). intros n.
  rewrite decide_unknown_iff.
  2:{ intros i Hi ->.
      exact (unknown_not_label (scored_rules_label _ _ _ _ Hi)). }
  split; intros [H Hlen]; (split; [|exact Hlen]).
  - intros intent _. apply get_bound; [lia|].
    exact (scored_rules_none_values _ _ (intent_scores_nonempty n) H).
  - apply scored_rules_none_intro; [exact H|].
    intros k v Hin. apply intent_scores_entry in Hin as [Hk <-].
    exact (H k Hk).
Qed.

(** X8.  An answer other than "menu_query" and "unknown" is always backed
    by a score above 50 for the intent that is returned. *)
Theorem detect_intent_backed_by_score :
  forall user_msg intent,
    detect user_msg = intent ->
    intent <> "menu_query" -> intent <> "unknown" ->
    50 < get (scores (normalize_text user_msg)) intent 0.
Proof.
  intros user_msg intent. unfold detect_intent. cbv zeta.
  generalize (normalize_text user_msg). intros n.
  apply decide_backed, intent_scores_nodup.
Qed.

End MoreIntentProofs.

(** ** Scores grow with the keyword list *)

Lemma keyword_override_bound n kws s b :
  s <= b ->
  (forall k, In k kws -> standalone k n = true -> 100 <= b) ->
  (forall k, In k kws ->
             ((3 <? String.length k)%nat && contains k n) = true -> 90 <= b) ->
  keyword_override n s kws <= b.
Proof.
  unfold keyword_override. revert s.
  induction kws as [|k kws IH]; intros s Hs H100 H90; cbn [fold_left]; [exact Hs|].
  apply IH.
  - destruct (standalone k n) eqn:Es.
    + specialize (H100 k (or_introl eq_refl) Es). lia.
    + destruct ((3 <? String.length k)%nat && contains k n) eqn:El; [|exact Hs].
      specialize (H90 k (or_introl eq_refl) El). lia.
  - intros k' Hin. apply H100. now right.
  - intros k' Hin. apply H90. now right.
Qed.

Section ScoreProofs.

Variables ratio partial_ratio : string -> string -> Z.

Lemma recorded_scores_incl text kws kws' :
  incl kws kws' ->
  incl (recorded_scores ratio partial_ratio text kws)
       (recorded_scores ratio partial_ratio text kws').
Proof.
  intros Hincl y Hy. unfold recorded_scores in *.
  apply in_app_or in Hy as [Hy|Hy]; apply in_or_app.
  - left. apply in_map_iff in Hy as (k & <- & Hk).
    apply in_map_iff. exists k. split; [reflexivity|now apply Hincl].
  - right. apply in_map_iff in Hy as (k & <- & Hk).
    apply filter_In in Hk as [Hk Hm].
    apply in_map_iff. exists k. split; [reflexivity|].
    apply filter_In. split; [now apply Hincl|exact Hm].
Qed.

Lemma calculate_intent_score_incl text kws kws' :
  incl kws kws' ->
  calculate_intent_score ratio partial_ratio text kws
  <= calculate_intent_score ratio partial_ratio text kws'.
Proof.
  intros Hincl.
  pose proof (recorded_scores_incl text _ _ Hincl) as Hrec.
  pose proof (score_of_nonneg ratio partial_ratio text kws') as Hnn.
  unfold calculate_intent_score in *.
  destruct (py_max (recorded_scores ratio partial_ratio text kws)) as [m|] eqn:Em;
    [|exact Hnn].
  destruct (py_max (recorded_scores ratio partial_ratio text kws')) as [m'|] eqn:Em'.
  - apply (py_max_le _ _ _ Em). intros x Hx.
    apply (py_max_bound _ _ Em'). now apply Hrec.
  - destruct (recorded_scores ratio partial_ratio text kws) as [|x r];
      [discriminate|].
    specialize (Hrec x (or_introl eq_refl)).
    destruct (recorded_scores ratio partial_ratio text kws'); [destruct Hrec|discriminate].
Qed.

(** X9.  Keywords only add: when every keyword of one list is in another,
    the second list scores at least as high, both for
    [calculate_intent_score] and for the score [detect_intent] uses; the
    order of the keywords and their repetitions do not matter. *)
Theorem keyword_scores_monotone :
  forall text kws kws',
    incl kws kws' ->
    calculate_intent_score ratio partial_ratio text kws
    <= calculate_intent_score ratio partial_ratio text kws'
    /\ intent_score ratio partial_ratio text kws
       <= intent_score ratio partial_ratio text kws'.
Proof.
  intros text kws kws' Hincl.
  pose proof (calculate_intent_score_incl text _ _ Hincl) as Hscore.
  split; [exact Hscore|]. unfold intent_score.
  apply keyword_override_bound.
  - pose proof (keyword_override_ge text kws'
                  (calculate_intent_score ratio partial_ratio text kws')). lia.
  - intros k Hk Hs. apply (keyword_override_standalone text kws' _ k); auto.
  - intros k Hk Hl. apply andb_true_iff in Hl as [Hlen Hsub].
    apply Nat.ltb_lt in Hlen.
    apply (keyword_override_substring text kws' _ k); auto.
Qed.

End ScoreProofs.

(** ** More on [search_menu] *)

Lemma flat_map_flat_map {A B C : Type} (f : A -> list B) (g : B -> list C) xs :
  flat_map g (flat_map f xs) = flat_map (fun x => flat_map g (f x)) xs.
Proof.
  induction xs as [|x xs IH]; cbn [flat_map]; [reflexivity|].
  now rewrite flat_map_app, IH.
Qed.

Section MoreSearchProofs.

Variable py_str : value -> string.
Variable extract_score : string -> value -> option Z.

Lemma search_menu_corpus user_msg menu menu' :
  build_corpus py_str menu = build_corpus py_str menu' ->
  search_menu py_str extract_score user_msg (VDict menu)
  = search_menu py_str extract_score user_msg (VDict menu').
Proof. intros H. unfold search_menu. now rewrite H. Qed.

Lemma contributions_catalog_items menu :
  contributions py_str menu = flat_map (item_pairs py_str) (catalog_items menu).
Proof.
  unfold contributions, catalog_items. rewrite flat_map_flat_map.
  apply flat_map_ext. intros [category v]. unfold category_pairs. cbn [snd].
  now destruct v.
Qed.

Lemma item_name_contribution menu name :
  is_item_name menu name -> In (name, name) (contributions py_str menu).
Proof.
  intros (category & items & fields & Hcat & Hitem & Hname).
  unfold contributions. apply in_flat_map.
  exists (category, VList items). split; [exact Hcat|].
  unfold category_pairs. cbn [snd]. apply in_flat_map.
  exists (VDict fields). split; [exact Hitem|].
  unfold item_pairs. rewrite Hname. apply in_or_app. left. now left.
Qed.

(** X10.  How [search_menu] fails: on a value that is not a dict it raises
    [AttributeError]; on a dict it raises [TypeError] when one of the
    candidates of the corpus is a list or a dict, and returns otherwise.
    It raises nothing else. *)
Theorem search_menu_failure_modes :
  forall user_msg menu_data,
    match menu_data with
    | VDict menu =>
        if forallb (fun p => hashable (fst p)) (contributions py_str menu)
        then exists r,
               search_menu py_str extract_score user_msg menu_data = Ok r
        else search_menu py_str extract_score user_msg menu_data
             = Raise TypeError
    | _ => search_menu py_str extract_score user_msg menu_data
           = Raise AttributeError
    end.
Proof.
  intros user_msg menu_data.
  destruct menu_data as [| | | | |menu]; try reflexivity.
  destruct (forallb (fun p => hashable (fst p)) (contributions py_str menu)) eqn:E.
  - rewrite (search_menu_hashable py_str extract_score user_msg menu E). eauto.
  - unfold search_menu. rewrite build_corpus_contributions, E. reflexivity.
Qed.

(** X11.  The corpus is complete and the map covers it: when the corpus is
    built, every item name of the catalog is a candidate, and every
    candidate is a key of [item_map] whose value is the name of an item of
    the catalog. *)
Theorem build_corpus_complete :
  forall menu st,
    build_corpus py_str menu = Ok st ->
    (forall name, is_item_name menu name -> In name (all_items st))
    /\ (forall cand, In cand (all_items st) ->
          exists owner,
            map_get (item_map st) cand = Some owner /\ is_item_name menu owner).
Proof.
  intros menu st Hst. rewrite build_corpus_contributions in Hst.
  destruct (forallb (fun p => hashable (fst p)) (contributions py_str menu)) eqn:Hh;
    [|discriminate].
  injection Hst as <-. cbn [all_items item_map]. split.
  - intros name Hname. apply in_map_iff. exists (name, name).
    split; [reflexivity|now apply item_name_contribution].
  - intros cand Hin.
    destruct (last_owner_exists _ _ Hin (forallb_hashable_in _ _ Hh Hin))
      as [owner Hown].
    exists owner. rewrite map_get_assignments, Hown. split; [reflexivity|].
    apply last_owner_in in Hown as [c Hc].
    exact (contributions_owner py_str menu c owner Hc).
Qed.

(** X12.  Categories do not matter to [search_menu]: the result for a
    catalog is the result for the catalog whose single category lists all
    the items in order. *)
Theorem search_menu_ignores_categories :
  forall user_msg menu category,
    search_menu py_str extract_score user_msg (VDict menu)
    = search_menu py_str extract_score user_msg
        (VDict [(category, VList (catalog_items menu))]).
Proof.
  intros user_msg menu category. apply search_menu_corpus.
  rewrite !build_corpus_contributions.
  rewrite (contributions_catalog_items menu).
  rewrite (contributions_catalog_items [(category, VList (catalog_items menu))]).
  assert (H : catalog_items [(category, VList (catalog_items menu))]
              = catalog_items menu) by apply app_nil_r.
  now rewrite H.
Qed.

(** X13.  A catalog without a named item gives no match: when no item is
    a dict with a "name" key, [search_menu] returns [None] for every
    message. *)
Theorem search_menu_no_named_item :
  forall user_msg menu,
    (forall name, ~ is_item_name menu name) ->
    search_menu py_str extract_score user_msg (VDict menu) = Ok VNone.
Proof.
  intros user_msg menu Hno.
  assert (Hc : contributions py_str menu = []).
  { destruct (contributions py_str menu) as [|[c o] r] eqn:E; [reflexivity|].
    destruct (Hno o). apply (contributions_owner py_str menu c o).
    rewrite E. now left. }
  unfold search_menu. rewrite build_corpus_contributions, Hc. reflexivity.
Qed.

End MoreSearchProofs.

(** ** More on the FAQ resolver *)

Section MoreFaqProofs.

Variable token_set_ratio : string -> string -> Z.

Lemma faq_loop_raise user_lower entries st :
  forallb question_is_text entries = false ->
  for_each (faq_step token_set_ratio user_lower) entries st = Raise AttributeError.
Proof.
  revert st. induction entries as [|q entries IH]; intros st H; [discriminate|].
  cbn [forallb] in H. cbn [for_each].
  destruct (question_is_text q) eqn:Eq.
  - cbn [andb] in H. unfold faq_step at 1. unfold question_is_text in Eq.
    destruct q as [| | | | |fields]; cbn [bind]; try (now apply IH).
    destruct (dict_get fields "question" (VStr "")) as [| | |question| |];
      try discriminate.
    destruct (snd st <? token_set_ratio user_lower (lower question));
      cbn [bind]; now apply IH.
  - unfold faq_step at 1. unfold question_is_text in Eq.
    destruct q as [| | | | |fields]; try discriminate.
    destruct (dict_get fields "question" (VStr "")); try discriminate; reflexivity.
Qed.

Lemma faq_loop_skip user_lower entries st :
  (forall q, In q entries -> exists s, q = VStr s) ->
  for_each (faq_step token_set_ratio user_lower) entries st = Ok st.
Proof.
  induction entries as [|q entries IH]; intros H; [reflexivity|].
  cbn [for_each]. destruct (H q (or_introl eq_refl)) as [s ->].
  cbn [faq_step bind]. apply IH. intros q' Hq'. apply H. now right.
Qed.

Lemma chars_are_text s q : In q (chars s) -> exists t, q = VStr t.
Proof.
  induction s as [|c s IH]; cbn [chars]; [intros []|].
  intros [<-|H]; eauto.
Qed.

(** X14.  How the FAQ block fails or gives up.  Data that is not a dict
    raises [AttributeError].  A missing, empty or otherwise false "faq"
    value gives the reply that there is no FAQ information.  A list with a
    dict entry whose question is not text raises [AttributeError], even
    when an earlier entry matches.  A number or [True] raises [TypeError];
    a text or a dict has nothing to score and gives the no-match reply. *)
Theorem faq_block_failure_modes :
  forall user_lower data,
    ((forall fields, data <> VDict fields) ->
     faq_block token_set_ratio user_lower data = Raise AttributeError)
    /\ (forall fields,
          data = VDict fields ->
          truthy (dict_get fields "faq" (VList [])) = false ->
          faq_block token_set_ratio user_lower data = Ok (VStr no_faq_data))
    /\ (forall fields entries,
          data = VDict fields ->
          dict_get fields "faq" (VList []) = VList entries ->
          forallb question_is_text entries = false ->
          faq_block token_set_ratio user_lower data = Raise AttributeError)
    /\ (forall fields faqs,
          data = VDict fields ->
          dict_get fields "faq" (VList []) = faqs ->
          truthy faqs = true ->
          match faqs with
          | VInt _ | VBool _ =>
              faq_block token_set_ratio user_lower data = Raise TypeError
          | VStr _ | VDict _ =>
              faq_block token_set_ratio user_lower data
              = Ok (VStr no_faq_answer)
          | _ => True
          end).
Proof.
  intros user_lower data. repeat split.
  - intros H. destruct data as [| | | | |fields]; try reflexivity.
    now destruct (H fields).
  - intros fields -> Hf. unfold faq_block, data_get. cbn [bind]. now rewrite Hf.
  - intros fields entries -> Hfaq Hq. unfold faq_block, data_get. cbn [bind].
    rewrite Hfaq.
    destruct entries as [|q0 rest] eqn:E; [discriminate|]. rewrite <- E in *.
    assert (Ht : negb (truthy (VList entries)) = false) by now rewrite E.
    rewrite Ht. cbn [iterate bind]. now rewrite (faq_loop_raise _ _ _ Hq).
  - intros fields faqs -> Hfaq Ht. unfold faq_block, data_get. cbn [bind].
    rewrite Hfaq, Ht. cbn [negb].
    destruct faqs as [|b|z|s|items|d]; try exact I; try reflexivity.
    + cbn [iterate bind].
      rewrite (faq_loop_skip user_lower (chars s) (VNone, 0) (chars_are_text s)).
      reflexivity.
    + cbn [iterate bind]. rewrite faq_loop_skip; [reflexivity|].
      intros q Hq. apply in_map_iff in Hq as (kv & <- & _). eauto.
Qed.

Lemma faq_scores_in user_lower entries answer score :
  In (answer, score) (faq_scores token_set_ratio user_lower entries) ->
  exists fields,
    In (VDict fields) entries /\ answer = dict_get fields "answer" (VStr "").
Proof.
  unfold faq_scores. intros H. apply in_flat_map in H as (q & Hq & H).
  destruct q as [| | | | |fields]; try (exfalso; exact H).
  destruct (dict_get fields "question" (VStr "")); try (exfalso; exact H).
  destruct H as [[= <- _]|[]]. eauto.
Qed.

(** X15.  The FAQ block answers only from the list: on a non-empty list
    whose dict entries have text questions, the reply is the no-match text
    or the "answer" field (the empty text when the field is missing) of a
    dict entry of the list. *)
Theorem faq_block_answers_from_list :
  forall user_lower data_fields entries,
    dict_get data_fields "faq" (VList []) = VList entries ->
    entries <> [] ->
    forallb question_is_text entries = true ->
    exists reply,
      faq_block token_set_ratio user_lower (VDict data_fields) = Ok reply
      /\ (reply = VStr no_faq_answer
          \/ exists fields,
               In (VDict fields) entries
               /\ reply = dict_get fields "answer" (VStr "")).
Proof.
  intros user_lower data_fields entries Hfaq Hne Hq.
  rewrite (faq_block_spec token_set_ratio user_lower _ _ Hfaq Hne Hq).
  eexists. split; [reflexivity|]. unfold spec_faq_answer.
  destruct (first_max (faq_scores token_set_ratio user_lower entries))
    as [[answer score]|] eqn:E; [|now left].
  destruct (60 <? score); [|now left].
  right. apply first_max_in in E. exact (faq_scores_in _ _ _ _ E).
Qed.

End MoreFaqProofs.

(** ** The order of the decision rules *)

Lemma rule_hours_none s n : get s "hours_query" 0 <= 70 -> rule_hours s n = None.
Proof. intros H. unfold rule_hours. apply Z.ltb_ge in H. now rewrite H. Qed.

Lemma decide_precedence (s : list (string * Z)) (n : string) :
  get s "greeting" 0 <= 80 ->
  (80 < get s "farewell" 0 -> decide s n = "farewell")
  /\ (get s "farewell" 0 <= 80 ->
      (70 < get s "branch_query" 0 ->
       get s "menu_query" 0 <= get s "branch_query" 0 ->
       decide s n = "branch_query")
      /\ ((get s "branch_query" 0 <= 70
           \/ get s "branch_query" 0 < get s "menu_query" 0) ->
          (70 < get s "faq_query" 0 -> decide s n = "faq_query")
          /\ (get s "faq_query" 0 <= 70 ->
              get s "hours_query" 0 <= 70 ->
              (70 < get s "about" 0 -> get s "menu_query" 0 < 60 ->
               decide s n = "about")
              /\ (50 < get s "menu_query" 0 ->
                  (get s "about" 0 <= 70 \/ 60 <= get s "menu_query" 0) ->
                  decide s n = "menu_query")))).
Proof.
  intros Hg. unfold decide, scored_rules.
  rewrite (rule_greeting_none s Hg). cbn [orelse]. split.
  - intros Hf. unfold rule_farewell. apply Z.ltb_lt in Hf. now rewrite Hf.
  - intros Hf. rewrite (rule_farewell_none s Hf). cbn [orelse]. split.
    + intros Hb Hm. unfold rule_branch.
      apply Z.ltb_lt in Hb. apply Z.ltb_ge in Hm. now rewrite Hb, Hm.
    + intros Hb. rewrite (rule_branch_none s Hb). cbn [orelse]. split.
      * intros Hq. unfold rule_faq. apply Z.ltb_lt in Hq. now rewrite Hq.
      * intros Hq Hh. rewrite (rule_faq_none s Hq), (rule_hours_none s n Hh).
        cbn [orelse]. split.
        -- intros Ha Hm. unfold rule_about.
           apply Z.ltb_lt in Ha. apply Z.ltb_lt in Hm. now rewrite Ha, Hm.
        -- intros Hm Ha.
           assert (E : rule_about s = None).
           { unfold rule_about. destruct Ha as [Ha|Ha].
             - apply Z.ltb_ge in Ha. now rewrite Ha.
             - apply Z.ltb_ge in Ha. now rewrite Ha, andb_false_r. }
           rewrite E, (rule_menu_some s Hm). reflexivity.
Qed.

(** X16.  The rules between the greeting rule and the fallbacks fire in
    source order.  With a greeting score of at most 80: a farewell score
    above 80 gives "farewell"; failing that, a branch score above 70 that
    the menu score does not exceed gives "branch_query"; failing that, a
    FAQ score above 70 gives "faq_query"; failing that, with an hours score
    of at most 70, an about score above 70 together with a menu score below
    60 gives "about", and a menu score above 50 gives "menu_query" when the
    about rule does not apply. *)
Theorem detect_intent_rule_order :
  forall ratio partial_ratio user_msg,
    let s := intent_scores ratio partial_ratio (normalize_text user_msg) in
    let intent := detect_intent ratio partial_ratio user_msg in
    get s "greeting" 0 <= 80 ->
    (80 < get s "farewell" 0 -> intent = "farewell")
    /\ (get s "farewell" 0 <= 80 ->
        (70 < get s "branch_query" 0 ->
         get s "menu_query" 0 <= get s "branch_query" 0 ->
         intent = "branch_query")
        /\ ((get s "branch_query" 0 <= 70
             \/ get s "branch_query" 0 < get s "menu_query" 0) ->
            (70 < get s "faq_query" 0 -> intent = "faq_query")
            /\ (get s "faq_query" 0 <= 70 ->
                get s "hours_query" 0 <= 70 ->
                (70 < get s "about" 0 -> get s "menu_query" 0 < 60 ->
                 intent = "about")
                /\ (50 < get s "menu_query" 0 ->
                    (get s "about" 0 <= 70 \/ 60 <= get s "menu_query" 0) ->
                    intent = "menu_query")))).
Proof.
  intros ratio partial_ratio user_msg. unfold detect_intent. cbv zeta.
  generalize (normalize_text user_msg). intros n.
  exact (decide_precedence (intent_scores ratio partial_ratio n) n).
Qed.

(** * The further properties at concrete inputs *)

Lemma detect_intent_case_insensitive_witness :
  detect_intent exact_ratio no_ratio "HELLO"
  = detect_intent exact_ratio no_ratio "hello".
Proof.
  apply (proj1 (detect_intent_case_insensitive exact_ratio no_ratio));
    reflexivity.
Defined.

Lemma expand_synonyms_keeps_words_witness :
  In "please" (expanded_words "show menu please" SYNONYMS).
Proof.
  apply (proj1 (expand_synonyms_keeps_words "show menu please" SYNONYMS)).
  vm_compute. right. right. left. reflexivity.
Defined.

Lemma fuzzy_word_in_text_properties_witness :
  fuzzy_word_in_text exact_ratio "menu" "the Menu" 50 = true.
Proof.
  apply (proj2 (proj2 (fuzzy_word_in_text_properties exact_ratio "menu" "the Menu"))
           50 70).
  - lia.
  - vm_compute. reflexivity.
Defined.

Lemma detect_intent_unknown_iff_witness :
  detect_intent exact_ratio no_ratio "zzz yyy xxx www vvv" = "unknown".
Proof.
  apply (proj2 (detect_intent_unknown_iff exact_ratio no_ratio "zzz yyy xxx www vvv")).
  split.
  - intros intent Hin. unfold intent_labels, In in Hin.
    repeat (destruct Hin as [<-|Hin]; [vm_compute; discriminate|]).
    destruct Hin.
  - vm_compute. lia.
Defined.

Lemma detect_intent_backed_by_score_witness :
  50 < get (intent_scores exact_ratio no_ratio (normalize_text "hello"))
         "greeting" 0.
Proof.
  apply (detect_intent_backed_by_score exact_ratio no_ratio "hello" "greeting").
  - vm_compute. reflexivity.
  - discriminate.
  - discriminate.
Defined.

Lemma keyword_scores_monotone_witness :
  intent_score exact_ratio no_ratio "hello there" ["hello"]
  <= intent_score exact_ratio no_ratio "hello there" ["hi"; "hello"].
Proof.
  apply (proj2 (keyword_scores_monotone exact_ratio no_ratio "hello there"
                  ["hello"] ["hi"; "hello"]
                  (fun x H => match H with
                              | or_introl e => or_intror (or_introl e)
                              | or_intror f => match f with end
                              end))).
Defined.

Lemma build_corpus_complete_witness :
  match build_corpus no_str name_clash_menu with
  | Ok st => In (VStr "Fries") (all_items st)
  | Raise _ => False
  end.
Proof.
  destruct (build_corpus no_str name_clash_menu) as [st|e] eqn:E.
  - apply (proj1 (build_corpus_complete no_str name_clash_menu st E)).
    exists "sides", [VDict [("name", VStr "Fries")]], [("name", VStr "Fries")].
    split; [right; right; left; reflexivity|].
    split; [left; reflexivity|reflexivity].
  - vm_compute in E. discriminate.
Defined.

Lemma search_menu_no_named_item_witness :
  search_menu no_str exact_score "Zinger Burger" (VDict unnamed_menu) = Ok VNone.
Proof.
  apply search_menu_no_named_item.
  intros name (category & items & fields & Hcat & Hitem & Hname).
  destruct Hcat as [[= <- <-]|[[=]|[]]].
  destruct Hitem as [[=]|[[= <-]|[]]].
  discriminate.
Defined.

Lemma faq_block_failure_modes_witness :
  faq_block exact_ratio "do you deliver?" (VDict [("faq", VList broken_faqs)])
  = Raise AttributeError.
Proof.
  apply (proj1 (proj2 (proj2 (faq_block_failure_modes exact_ratio
           "do you deliver?" (VDict [("faq", VList broken_faqs)]))))
           [("faq", VList broken_faqs)] broken_faqs).
  - reflexivity.
  - reflexivity.
  - reflexivity.
Defined.

Lemma faq_block_answers_from_list_witness :
  exists reply,
    faq_block exact_ratio "do you deliver?" (VDict sample_data) = Ok reply
    /\ (reply = VStr no_faq_answer
        \/ exists fields,
             In (VDict fields) sample_faqs
             /\ reply = dict_get fields "answer" (VStr "")).
Proof.
  apply (faq_block_answers_from_list exact_ratio "do you deliver?"
           sample_data sample_faqs).
  - reflexivity.
  - discriminate.
  - reflexivity.
Defined.

Lemma detect_intent_rule_order_witness :
  detect_intent exact_ratio no_ratio "bye" = "farewell".
Proof.
  refine (proj1 (detect_intent_rule_order exact_ratio no_ratio "bye" _) _).
  - vm_compute. discriminate.
  - vm_compute. reflexivity.
Defined.

Lemma api_query_buttons_witness :
  api_query exact_ratio no_ratio exact_ratio first_choice [] "fallback"
    plain_block plain_block plain_block plain_block
    absent_block absent_block absent_block absent_block absent_block
    (Some (VDict sample_data)) "Chicken burger, please"
  = Ok (VStr "display text", ["View Menu"; "Our Branches"; "Opening Hours"]).
Proof.
  apply (proj2 (proj2 (api_query_buttons exact_ratio no_ratio exact_ratio
           first_choice [] "fallback" plain_block plain_block plain_block
           plain_block absent_block absent_block absent_block absent_block
           absent_block "Chicken burger, please"))
           (VDict sample_data) (VStr "display text") "chicken").
  - vm_compute. reflexivity.
  - reflexivity.
  - reflexivity.
  - reflexivity.
Defined.

Lemma normalize_text_idempotent_witness :
  normalize_text (normalize_text "  What's  UP?? ")
  = normalize_text "  What's  UP?? ".
Proof. apply normalize_text_idempotent. reflexivity. Defined.

Lemma normalize_text_shape_witness :
  all_chars plain_char (normalize_text "Hello, World_2!") = true.
Proof.
  apply (proj1 (normalize_text_shape "Hello, World_2!" eq_refl)).
Defined.
